(** * MiniAuction: the bidding and auction-lifecycle engine

    A shallow embedding of the database functions of the auction
    marketplace (the PL/pgSQL functions [update_auction_status] and
    [handle_new_bid], with the tables they read and write) and of the
    client-side phase predicates of the React components, followed by the
    properties of the specification that concern them.

    Conventions of the embedding:
    - a [uuid] is an opaque key with decidable equality ([N]);
    - a [timestamptz] is an integer number of microseconds ([Z]); [now()]
      is the start time of the running transaction and is passed to every
      database function as the argument [now];
    - a [decimal(10,2)] is an integer number of cents ([Z]); assigning to a
      PL/pgSQL variable declared [NUMERIC(10,2)] raises
      [numeric_field_overflow] when the value does not fit;
    - a nullable column is an [option];
    - the table [auctions] is a finite map from its primary key [id] to the
      remaining columns; [bids] and [notifications] are lists of rows in
      insertion order (the surrogate key of a notification is the position
      of its row). *)

From Stdlib Require Import ZArith Ascii String.
From stdpp Require Import base tactics option numbers list gmap strings pretty sorting.

Local Open Scope Z_scope.

(** ** Column types *)

Abbreviation uuid := N (only parsing).
Abbreviation timestamptz := Z (only parsing).
Abbreviation numeric := Z (only parsing).

(** [CREATE TYPE auction_status AS ENUM ('draft', 'active', 'ended', 'cancelled')] *)
Inductive auction_status := draft | active | ended | cancelled.

#[global] Instance auction_status_eq_dec : EqDecision auction_status.
Proof. solve_decision. Defined.

(** [CREATE TYPE notification_type AS ENUM (...)] *)
Inductive notification_type :=
  new_bid | outbid | auction_ended | bid_accepted | bid_rejected | counter_offer.

#[global] Instance notification_type_eq_dec : EqDecision notification_type.
Proof. solve_decision. Defined.

(** ** Rows *)

(** A row of [auctions], without its key. *)
Record auction := mk_auction {
  seller_id : uuid;
  title : string;
  description : string;
  starting_price : numeric;
  bid_increment : numeric;
  start_time : timestamptz;
  end_time : timestamptz;
  status : auction_status;
  highest_bid : option numeric;
  highest_bidder_id : option uuid;
  created_at : timestamptz
}.

(** A row of [bids]. *)
Record bid := mk_bid {
  bid_id : uuid;
  auction_id : uuid;
  bidder_id : uuid;
  amount : numeric;
  bid_created_at : timestamptz
}.

(** A row of [notifications]. *)
Record notification := mk_notification {
  user_id : uuid;
  n_auction_id : option uuid;
  type : notification_type;
  message : string;
  read : bool;
  n_created_at : timestamptz
}.

(** The persisted state. *)
Record database := mk_database {
  auctions : gmap N auction;
  bids : list bid;
  notifications : list notification
}.

Definition empty_database : database :=
  {| auctions := ∅; bids := []; notifications := [] |}.

(** ** Errors raised by the database *)

Inductive exn :=
  | Auction_not_found
  | Auction_is_not_active
  | Auction_has_ended
  | Sellers_cannot_bid_on_their_own_auctions
  | Bid_amount_must_be_at_least (minimum_bid : numeric)
  | numeric_field_overflow
  | check_violation
  | unique_violation.

#[global] Instance exn_eq_dec : EqDecision exn.
Proof. solve_decision. Defined.

(** ** The monad of database code

    A computation reads and writes the database and either returns a value
    or raises. The state reached when an exception is raised is kept, so
    that what a function wrote before raising is visible; undoing it is the
    job of [statement] below. *)

Definition plpgsql (A : Type) : Type := database → (exn + A) * database.

#[global] Instance plpgsql_ret : MRet plpgsql := λ A x db, (inr x, db).

#[global] Instance plpgsql_bind : MBind plpgsql := λ A B k m db,
  match m db with
  | (inl e, db') => (inl e, db')
  | (inr x, db') => k x db'
  end.

Definition RAISE {A} (e : exn) : plpgsql A := λ db, (inl e, db).

Definition get : plpgsql database := λ db, (inr db, db).

Definition modify (f : database → database) : plpgsql unit := λ db, (inr tt, f db).

(** [IF c THEN RAISE EXCEPTION e; END IF;] *)
Definition IF_THEN_RAISE (c : bool) (e : exn) : plpgsql unit :=
  if c then RAISE e else mret tt.

(** A statement is atomic: when it raises, everything it wrote is undone. *)
Definition statement {A} (m : plpgsql A) : plpgsql A :=
  λ db, match m db with
        | (inl e, _) => (inl e, db)
        | (inr x, db') => (inr x, db')
        end.

(** ** SQL building blocks *)

(** [COALESCE(x, d)] *)
Definition COALESCE {A} (x : option A) (d : A) : A := default d x.

(** The values a [NUMERIC(10,2)] holds, in cents: at most ten digits. *)
Definition numeric_10_2_fits (x : numeric) : bool := Z.abs x <? 10 ^ 10.

(** Assignment to a variable declared [NUMERIC(10,2)]. *)
Definition assign_numeric_10_2 (x : numeric) : plpgsql numeric :=
  if numeric_10_2_fits x then mret x else RAISE numeric_field_overflow.

(** [SELECT * INTO r FROM auctions WHERE id = k]: [None] stands for the row
    variable being NULL. *)
Definition SELECT_auction (k : uuid) : plpgsql (option auction) :=
  db ← get; mret (auctions db !! k).

(** [UPDATE auctions SET ... WHERE ...]: every row that satisfies the
    condition is rewritten, the others are kept. *)
Definition UPDATE_auctions (where_ : uuid → auction → bool)
    (set : auction → auction) : plpgsql unit :=
  modify (λ db,
    {| auctions := map_imap (λ k a, Some (if where_ k a then set a else a))
                     (auctions db);
       bids := bids db;
       notifications := notifications db |}).

(** [INSERT INTO notifications (user_id, auction_id, type, message) VALUES
    (...)], with the defaults of the other columns. *)
Definition INSERT_notification (now : timestamptz) (u a : uuid)
    (t : notification_type) (msg : string) : plpgsql unit :=
  modify (λ db,
    {| auctions := auctions db;
       bids := bids db;
       notifications := notifications db ++
         [ {| user_id := u; n_auction_id := Some a; type := t;
              message := msg; read := false; n_created_at := now |} ] |}).

(** The text of a [NUMERIC(10,2)]: the units, a point and two decimals. *)
Definition numeric_text (x : numeric) : string :=
  (if x <? 0 then "-" else EmptyString)
  +:+ pretty (Z.abs x `div` 100) +:+ "."
  +:+ pretty ((Z.abs x `mod` 100) `div` 10) +:+ pretty (Z.abs x `mod` 10).

Definition dquote : string := String (ascii_of_nat 34) EmptyString.

(** ** [update_auction_status()], as replaced by the bid-validation migration *)

Definition set_status (s : auction_status) (a : auction) : auction :=
  {| seller_id := seller_id a; title := title a; description := description a;
     starting_price := starting_price a; bid_increment := bid_increment a;
     start_time := start_time a; end_time := end_time a;
     status := s;
     highest_bid := highest_bid a; highest_bidder_id := highest_bidder_id a;
     created_at := created_at a |}.

Definition update_auction_status (now : timestamptz) : plpgsql unit :=
  (* Update auctions that should be active *)
  UPDATE_auctions
    (λ _ a, bool_decide (status a = draft)
            && (start_time a <=? now) && (end_time a >? now))
    (set_status active);;
  (* Update auctions that should be ended *)
  UPDATE_auctions
    (λ _ a, (bool_decide (status a = draft) || bool_decide (status a = active))
            && (end_time a <=? now))
    (set_status ended).

(** ** [handle_new_bid()], the trigger function [AFTER INSERT ON bids] *)

Definition set_leader (amt : numeric) (b : uuid) (a : auction) : auction :=
  {| seller_id := seller_id a; title := title a; description := description a;
     starting_price := starting_price a; bid_increment := bid_increment a;
     start_time := start_time a; end_time := end_time a;
     status := status a;
     highest_bid := Some amt; highest_bidder_id := Some b;
     created_at := created_at a |}.

Definition new_bid_message (amt : numeric) (ttl : string) : string :=
  "New bid of $" +:+ numeric_text amt +:+ " placed on your auction "
  +:+ dquote +:+ ttl +:+ dquote.

Definition outbid_message (amt : numeric) (ttl : string) : string :=
  "You have been outbid on " +:+ dquote +:+ ttl +:+ dquote
  +:+ ". New highest bid: $" +:+ numeric_text amt.

Definition handle_new_bid (now : timestamptz) (NEW : bid) : plpgsql unit :=
  (* Get the auction record *)
  found ← SELECT_auction (auction_id NEW);
  (* Check if auction exists and is active *)
  match found with
  | None => RAISE Auction_not_found
  | Some auction_record =>
    IF_THEN_RAISE (bool_decide (status auction_record ≠ active))
      Auction_is_not_active;;
    (* Check if auction has ended *)
    IF_THEN_RAISE (end_time auction_record <=? now) Auction_has_ended;;
    (* Prevent seller from bidding on their own auction *)
    IF_THEN_RAISE (bool_decide (seller_id auction_record = bidder_id NEW))
      Sellers_cannot_bid_on_their_own_auctions;;
    (* Calculate minimum bid *)
    current_highest_bid ←
      assign_numeric_10_2 (COALESCE (highest_bid auction_record) 0);
    minimum_bid ←
      (if current_highest_bid =? 0
       then assign_numeric_10_2 (starting_price auction_record)
       else assign_numeric_10_2
              (current_highest_bid + bid_increment auction_record));
    (* Validate bid amount *)
    IF_THEN_RAISE (amount NEW <? minimum_bid)
      (Bid_amount_must_be_at_least minimum_bid);;
    (* Update auction with new highest bid *)
    UPDATE_auctions (λ k _, bool_decide (k = auction_id NEW))
      (set_leader (amount NEW) (bidder_id NEW));;
    (* Create notification for the seller *)
    INSERT_notification now (seller_id auction_record) (auction_id NEW) new_bid
      (new_bid_message (amount NEW) (title auction_record));;
    (* Create notification for previous highest bidder (if exists and different) *)
    match highest_bidder_id auction_record with
    | Some previous =>
      if bool_decide (previous ≠ bidder_id NEW)
      then INSERT_notification now previous (auction_id NEW) outbid
             (outbid_message (amount NEW) (title auction_record))
      else mret tt
    | None => mret tt
    end
  end.

(** ** The statements the clients issue *)

(** [INSERT INTO bids (auction_id, bidder_id, amount)], as issued by
    [handlePlaceBid]: the column check [amount > 0], the new row, then the
    trigger [on_bid_created] on that row. [id] is the key drawn by
    [gen_random_uuid()]. *)
Definition INSERT_INTO_bids (now : timestamptz) (id a b : uuid) (amt : numeric)
    : plpgsql unit :=
  let NEW := {| bid_id := id; auction_id := a; bidder_id := b; amount := amt;
                bid_created_at := now |} in
  IF_THEN_RAISE (negb (amt >? 0)) check_violation;;
  modify (λ db, {| auctions := auctions db; bids := bids db ++ [NEW];
                   notifications := notifications db |});;
  handle_new_bid now NEW.

(** [INSERT INTO auctions (seller_id, title, description, starting_price,
    bid_increment, start_time, end_time, status)]: the column checks, the
    primary key, and the defaults of [highest_bid], [highest_bidder_id] and
    [created_at]. *)
Definition INSERT_INTO_auctions (now : timestamptz) (id seller : uuid)
    (ttl descr : string) (price incr : numeric) (st en : timestamptz)
    (s : auction_status) : plpgsql unit :=
  IF_THEN_RAISE (negb (price >? 0)) check_violation;;
  IF_THEN_RAISE (negb (incr >? 0)) check_violation;;
  IF_THEN_RAISE (negb (en >? st)) check_violation;;
  db ← get;
  IF_THEN_RAISE (bool_decide (is_Some (auctions db !! id))) unique_violation;;
  modify (λ db,
    {| auctions := <[ id :=
         {| seller_id := seller; title := ttl; description := descr;
            starting_price := price; bid_increment := incr;
            start_time := st; end_time := en; status := s;
            highest_bid := Some 0; highest_bidder_id := None;
            created_at := now |} ]> (auctions db);
       bids := bids db;
       notifications := notifications db |}).

(** What a client can ask of the database: [CreateAuctionModal] inserts an
    auction in status ['draft'], [loadAuctions] and [loadDashboardData] call
    [update_auction_status], [handlePlaceBid] inserts a bid. *)
Inductive command :=
  | CreateAuction (id seller : uuid) (ttl descr : string)
      (price incr : numeric) (st en : timestamptz)
  | ReconcileStatuses
  | PlaceBid (id a b : uuid) (amt : numeric).

Definition exec (now : timestamptz) (c : command) : plpgsql unit :=
  statement
    match c with
    | CreateAuction id seller ttl descr price incr st en =>
        INSERT_INTO_auctions now id seller ttl descr price incr st en draft
    | ReconcileStatuses => update_auction_status now
    | PlaceBid id a b amt => INSERT_INTO_bids now id a b amt
    end.

(** The database together with the time of the last transaction. Each
    command comes with the time elapsed since the previous one. *)
Record world := mk_world { clock : timestamptz; db : database }.

Definition initial_world (t0 : timestamptz) : world :=
  {| clock := t0; db := empty_database |}.

Definition step (w : world) (ev : N * command) : world :=
  let now := clock w + Z.of_N ev.1 in
  {| clock := now; db := (exec now ev.2 (db w)).2 |}.

Definition run (w : world) (evs : list (N * command)) : world :=
  foldl step w evs.

(** ** The phase of an auction, as the clients compute it *)

(** The auction list ([filteredAuctions] of [App]). *)
Module App.
Definition isUpcoming (a : auction) (now : timestamptz) : bool :=
  now <? start_time a.
Definition isActive (a : auction) (now : timestamptz) : bool :=
  (now >=? start_time a) && (now <? end_time a)
  && negb (bool_decide (status a = ended)).
Definition isEnded (a : auction) (now : timestamptz) : bool :=
  (now >=? end_time a) || bool_decide (status a = ended).
End App.

(** The auction card and the auction room, which share their code:
    [isBefore] and [isAfter] of date-fns are the strict comparisons. *)
Module AuctionCard.
Definition isBefore (d c : timestamptz) : bool := d <? c.
Definition isAfter (d c : timestamptz) : bool := d >? c.

Definition isUpcoming (a : auction) (now : timestamptz) : bool :=
  isBefore now (start_time a).
Definition isActive (a : auction) (now : timestamptz) : bool :=
  isAfter now (start_time a) && isBefore now (end_time a).
Definition isEnded (a : auction) (now : timestamptz) : bool :=
  isAfter now (end_time a) || bool_decide (status a = ended).
End AuctionCard.

(** The minimum the bid form of the auction room asks for before it
    submits ([handlePlaceBid]); a NULL [highest_bid] is not [> 0]. *)
Module AuctionRoom.
Definition minimumBid (a : auction) : numeric :=
  match highest_bid a with
  | Some h => if h >? 0 then h + bid_increment a else starting_price a
  | None => starting_price a
  end.
End AuctionRoom.

(** ** [update_auction_status()] of the initial schema

    The first migration defined the function differently; the bid-validation
    migration replaced it by the one above. *)
Module InitialSchema.
Definition update_auction_status (now : timestamptz) : plpgsql unit :=
  (* Update auctions to active if start time has passed *)
  UPDATE_auctions
    (λ _ a, bool_decide (status a = draft) && (start_time a <=? now))
    (set_status active);;
  (* Update auctions to ended if end time has passed *)
  UPDATE_auctions
    (λ _ a, bool_decide (status a = active) && (end_time a <=? now))
    (set_status ended).
End InitialSchema.

(** ** Verdicts *)

Inductive RejectReason :=
  | NotFound
  | NotActive
  | SelfBid
  | BelowMinimum (minimumBid : numeric).

(** [Fault] is an error that is not one of the four validation errors. *)
Inductive verdict :=
  | Accept
  | Reject (reason : RejectReason)
  | Fault (e : exn).

Definition reason_of (e : exn) : option RejectReason :=
  match e with
  | Auction_not_found => Some NotFound
  | Auction_is_not_active | Auction_has_ended => Some NotActive
  | Sellers_cannot_bid_on_their_own_auctions => Some SelfBid
  | Bid_amount_must_be_at_least m => Some (BelowMinimum m)
  | numeric_field_overflow | check_violation | unique_violation => None
  end.

Definition verdict_of {A} (r : exn + A) : verdict :=
  match r with
  | inr _ => Accept
  | inl e => match reason_of e with Some r => Reject r | None => Fault e end
  end.

(** The validation of a bid is what the trigger function answers. *)
Definition validate (d : database) (now : timestamptz) (NEW : bid) : verdict :=
  verdict_of (handle_new_bid now NEW d).1.

(** The decision procedure in the words of the specification, with the
    phase of the auction list for [phaseOf]. *)
Definition spec_minimumBid (a : auction) : numeric :=
  let highestBid := COALESCE (highest_bid a) 0 in
  if highestBid =? 0 then starting_price a else highestBid + bid_increment a.

Definition spec_validate (found : option auction) (now : timestamptz)
    (bidderId : uuid) (amt : numeric) : verdict :=
  match found with
  | None => Reject NotFound
  | Some a =>
    if negb (App.isActive a now) then Reject NotActive
    else if bool_decide (bidderId = seller_id a) then Reject SelfBid
    else if amt <? spec_minimumBid a then Reject (BelowMinimum (spec_minimumBid a))
    else Accept
  end.

(** The decision procedure the trigger function follows: the persisted
    status and the end time stand for the phase, and the minimum has to fit
    its variable. *)
Definition ordered_checks (found : option auction) (now : timestamptz)
    (bidderId : uuid) (amt : numeric) : verdict :=
  match found with
  | None => Reject NotFound
  | Some a =>
    if bool_decide (status a ≠ active) || (end_time a <=? now)
    then Reject NotActive
    else if bool_decide (bidderId = seller_id a) then Reject SelfBid
    else if negb (numeric_10_2_fits (COALESCE (highest_bid a) 0)
                  && numeric_10_2_fits (spec_minimumBid a))
    then Fault numeric_field_overflow
    else if amt <? spec_minimumBid a then Reject (BelowMinimum (spec_minimumBid a))
    else Accept
  end.

(** * Definitions used in the statements *)

(** ** The net effect of the database functions *)

(** The notifications an accepted bid gives rise to, and the database it
    leaves: the net effect of the three writes of [handle_new_bid]. *)
Definition bid_notifications (now : timestamptz) (NEW : bid) (r : auction)
    : list notification :=
  {| user_id := seller_id r; n_auction_id := Some (auction_id NEW);
     type := new_bid; message := new_bid_message (amount NEW) (title r);
     read := false; n_created_at := now |}
  :: match highest_bidder_id r with
     | Some previous =>
       if bool_decide (previous ≠ bidder_id NEW)
       then [ {| user_id := previous; n_auction_id := Some (auction_id NEW);
                 type := outbid;
                 message := outbid_message (amount NEW) (title r);
                 read := false; n_created_at := now |} ]
       else []
     | None => []
     end.

Definition committed (now : timestamptz) (NEW : bid) (r : auction)
    (d : database) : database :=
  {| auctions :=
       map_imap (λ k a, Some (if bool_decide (k = auction_id NEW)
                              then set_leader (amount NEW) (bidder_id NEW) a
                              else a)) (auctions d);
     bids := bids d;
     notifications := notifications d ++ bid_notifications now NEW r |}.

(** The conditions under which the trigger function lets a bid through. *)
Definition passes (now : timestamptz) (NEW : bid) (r : auction) : Prop :=
  status r = active ∧ now < end_time r ∧ seller_id r ≠ bidder_id NEW
  ∧ numeric_10_2_fits (COALESCE (highest_bid r) 0) = true
  ∧ numeric_10_2_fits (spec_minimumBid r) = true
  ∧ spec_minimumBid r ≤ amount NEW.

(** What the two updates of [update_auction_status] make of one row. *)
Definition reconciled (now : timestamptz) (a : auction) : auction :=
  let a1 :=
    if bool_decide (status a = draft) && (start_time a <=? now)
       && (end_time a >? now)
    then set_status active a else a in
  if (bool_decide (status a1 = draft) || bool_decide (status a1 = active))
     && (end_time a1 <=? now)
  then set_status ended a1 else a1.

(** ** What one command does to one auction *)

(** The row a successful [INSERT INTO auctions] stores. *)
Definition created_row (now : timestamptz) (seller : uuid) (ttl descr : string)
    (price incr : numeric) (st en : timestamptz) : auction :=
  {| seller_id := seller; title := ttl; description := descr;
     starting_price := price; bid_increment := incr;
     start_time := st; end_time := en; status := draft;
     highest_bid := Some 0; highest_bidder_id := None; created_at := now |}.

(** The ways the row under one key changes when a command runs at [now]. *)
Inductive row_step (now : timestamptz) : option auction → option auction → Prop :=
  | row_kept o : row_step now o o
  | row_created seller ttl descr price incr st en :
      0 < price → 0 < incr → st < en →
      row_step now None (Some (created_row now seller ttl descr price incr st en))
  | row_reconciled a :
      row_step now (Some a) (Some (reconciled now a))
  | row_outbid NEW r :
      passes now NEW r →
      row_step now (Some r) (Some (set_leader (amount NEW) (bidder_id NEW) r)).

#[local] Hint Constructors row_step : core.

(** ** Invariants of the rows *)

(** The column checks of [auctions], the freshness of an ['active'] status
    with respect to the start time, and the leader not being the seller. *)
Definition row_ok (t : timestamptz) (r : auction) : Prop :=
  0 < starting_price r ∧ 0 < bid_increment r ∧ start_time r < end_time r
  ∧ (status r = active → start_time r ≤ t)
  ∧ highest_bidder_id r ≠ Some (seller_id r).

Definition rows_ok (w : world) : Prop :=
  ∀ k r, auctions (db w) !! k = Some r → row_ok (clock w) r.

(** ** Concrete auctions used in examples *)

Definition lamp (s : auction_status) (h : option numeric) (leader : option uuid)
    : auction :=
  {| seller_id := 1%N; title := "Lamp"; description := "A brass lamp";
     starting_price := 1000; bid_increment := 500;
     start_time := 0; end_time := 100; status := s;
     highest_bid := h; highest_bidder_id := leader; created_at := 0 |}.

Definition one_auction (r : auction) : database :=
  {| auctions := {[ 7%N := r ]}; bids := []; notifications := [] |}.

Definition bid_on_lamp (bidder : uuid) (amt : numeric) : bid :=
  {| bid_id := 30%N; auction_id := 7%N; bidder_id := bidder; amount := amt;
     bid_created_at := 50 |}.

(** An auction created at time 0 and reconciled at time 50. *)
Definition lamp_listing : list (N * command) :=
  [ (0%N, CreateAuction 7%N 1%N "Lamp" "A brass lamp" 1000 500 0 100);
    (50%N, ReconcileStatuses) ].

(** * Further code of the repository *)

(** ** [handle_new_bid()] of the initial schema

    The first migration installed a trigger function without validation.
    It updates the auction first, then selects the recipients of its
    notifications from the tables as the update left them. The order of the
    rows of a [SELECT DISTINCT] is not specified; the list below is one of
    them, and no statement about it depends on the order. *)
Module InitialTrigger.
Definition outbid_message (ttl : string) : string :=
  "You have been outbid on " +:+ dquote +:+ ttl +:+ dquote.

Definition new_bid_message (amt : numeric) (ttl : string) : string :=
  "New bid of $" +:+ numeric_text amt +:+ " placed on "
  +:+ dquote +:+ ttl +:+ dquote.

(** [INSERT INTO notifications (user_id, auction_id, type, message)
    SELECT ...]: one row per selected tuple. *)
Definition INSERT_notifications_SELECT (now : timestamptz)
    (rows : list (uuid * uuid * notification_type * string)) : plpgsql unit :=
  modify (λ db,
    {| auctions := auctions db;
       bids := bids db;
       notifications := notifications db ++
         ((λ row : uuid * uuid * notification_type * string,
             {| user_id := row.1.1.1; n_auction_id := Some row.1.1.2;
                type := row.1.2; message := row.2; read := false;
                n_created_at := now |}) <$> rows) |}).

(** The previous highest bidder, read from [auctions]. *)
Definition SELECT_outbid (NEW : bid) (d : database)
    : list (uuid * uuid * notification_type * string) :=
  match auctions d !! auction_id NEW with
  | Some a =>
    match highest_bidder_id a with
    | Some leader =>
      if bool_decide (leader ≠ bidder_id NEW)
      then [ (leader, auction_id NEW, outbid, outbid_message (title a)) ]
      else []
    | None => []
    end
  | None => []
  end.

(** The participants, read from [bids JOIN auctions]. *)
Definition SELECT_participants (NEW : bid) (d : database)
    : list (uuid * uuid * notification_type * string) :=
  match auctions d !! auction_id NEW with
  | Some a =>
    remove_dups
      ((λ u, (u, auction_id NEW, new_bid,
              new_bid_message (amount NEW) (title a)))
       <$> filter (λ u, u ≠ bidder_id NEW)
             ((λ b : bid, if bool_decide (bidder_id b = bidder_id NEW)
                          then seller_id a else bidder_id b)
              <$> filter (λ b : bid, auction_id b = auction_id NEW) (bids d)))
  | None => []
  end.

Definition handle_new_bid (now : timestamptz) (NEW : bid) : plpgsql unit :=
  (* Update auction's highest bid *)
  UPDATE_auctions (λ k _, bool_decide (k = auction_id NEW))
    (set_leader (amount NEW) (bidder_id NEW));;
  (* Notify previous highest bidder they've been outbid *)
  d ← get;
  INSERT_notifications_SELECT now (SELECT_outbid NEW d);;
  (* Notify all participants about new bid *)
  d ← get;
  INSERT_notifications_SELECT now (SELECT_participants NEW d).
End InitialTrigger.

(** ** The auction list: [filteredAuctions] of [App]

    The text search is a parameter: the status filter does not depend on
    how a row matches the search term. *)
Definition filteredAuctions (matchesSearch : auction → bool)
    (statusFilter : string) (now : timestamptz)
    (rows : list (uuid * auction)) : list (uuid * auction) :=
  List.filter (λ row,
    let a := row.2 in
    if String.eqb statusFilter "all" then matchesSearch a
    else if String.eqb statusFilter "upcoming"
    then matchesSearch a && App.isUpcoming a now
    else if String.eqb statusFilter "active"
    then matchesSearch a && App.isActive a now
    else if String.eqb statusFilter "ended"
    then matchesSearch a && App.isEnded a now
    else matchesSearch a) rows.

(** ** The card of an auction: [getStatusText] *)
Module AuctionCardView.
Definition getStatusText (a : auction) (now : timestamptz) : string :=
  if AuctionCard.isUpcoming a now then "Upcoming"
  else if AuctionCard.isActive a now then "Live"
  else if AuctionCard.isEnded a now then "Ended"
  else "Draft".
End AuctionCardView.

(** ** The room of an auction: the badge, the price and the bid panel *)
Module AuctionRoomView.
(** [isUpcoming ? 'Upcoming' : isActive ? 'Live' : 'Ended'] *)
Definition statusBadge (a : auction) (now : timestamptz) : string :=
  if AuctionCard.isUpcoming a now then "Upcoming"
  else if AuctionCard.isActive a now then "Live"
  else "Ended".

(** [auction.highest_bid > 0 ? auction.highest_bid : auction.starting_price] *)
Definition currentPrice (a : auction) : numeric :=
  match highest_bid a with
  | Some h => if h >? 0 then h else starting_price a
  | None => starting_price a
  end.

(** [user && isActive && user.id !== auction.seller_id] *)
Definition canBid (user : option uuid) (a : auction) (now : timestamptz) : bool :=
  match user with
  | Some u => AuctionCard.isActive a now && negb (bool_decide (u = seller_id a))
  | None => false
  end.

(** What the panel says instead of the bid form. *)
Definition bidPanelMessage (user : option uuid) (a : auction)
    (now : timestamptz) : option string :=
  if canBid user a now then None
  else Some
    match user with
    | None => "Sign in to place bids"
    | Some _ =>
      if negb (AuctionCard.isActive a now)
      then if AuctionCard.isUpcoming a now
           then "Auction hasn't started yet" else "Auction has ended"
      else "You cannot bid on your own auction"
    end.
End AuctionRoomView.

(** ** [calculateTimeLeft] of [CountdownTimer]

    Times are the milliseconds of [Date.getTime()]. The quotients are then
    floored, so they are the integer quotients: the floating-point division
    is exact enough for that as long as the difference stays below 10^15
    milliseconds, some thirty thousand years. *)
Module CountdownTimer.
Record TimeLeft := mk_TimeLeft {
  days : Z; hours : Z; minutes : Z; seconds : Z; total : Z
}.

Definition calculateTimeLeft (targetDate now : Z) : TimeLeft :=
  let difference := targetDate - now in
  if difference <=? 0
  then {| days := 0; hours := 0; minutes := 0; seconds := 0; total := 0 |}
  else
    {| days := difference `div` (1000 * 60 * 60 * 24);
       hours := (difference `div` (1000 * 60 * 60)) `mod` 24;
       minutes := (difference `div` (1000 * 60)) `mod` 60;
       seconds := (difference `div` 1000) `mod` 60;
       total := difference |}.
End CountdownTimer.

(** ** The bid counts of [loadDashboardData] *)
Module Dashboard.
(** [.from('bids').select('auction_id').in('auction_id', auctionIds)] *)
Definition bidCounts (auctionIds : list uuid) (bs : list bid) : list uuid :=
  auction_id <$> filter (λ b : bid, auction_id b ∈ auctionIds) bs.

(** [bidCounts.reduce((acc, bid) => { acc[bid.auction_id] =
    (acc[bid.auction_id] || 0) + 1; return acc; }, {})] *)
Definition bidCountMap (counts : list uuid) : gmap N nat :=
  foldl (λ acc k, <[ k := (default 0%nat (acc !! k) + 1)%nat ]> acc) ∅ counts.

(** [bidCountMap[auction.id] || 0] *)
Definition bid_count (auctionIds : list uuid) (bs : list bid) (id : uuid) : nat :=
  default 0%nat (bidCountMap (bidCounts auctionIds bs) !! id).
End Dashboard.

(** * Further definitions used in the statements *)

(** ** What one command does to the database *)

Definition with_bid (d : database) (NEW : bid) : database :=
  {| auctions := auctions d; bids := bids d ++ [NEW];
     notifications := notifications d |}.

Inductive db_step (now : timestamptz) : database → database → Prop :=
  | db_kept d : db_step now d d
  | db_created d id seller ttl descr price incr st en :
      0 < price → 0 < incr → st < en → auctions d !! id = None →
      db_step now d
        {| auctions := <[ id := created_row now seller ttl descr price incr st en ]>
                         (auctions d);
           bids := bids d; notifications := notifications d |}
  | db_reconciled d :
      db_step now d
        {| auctions := reconciled now <$> auctions d;
           bids := bids d; notifications := notifications d |}
  | db_bid d NEW r :
      0 < amount NEW → bid_created_at NEW = now →
      auctions d !! auction_id NEW = Some r → passes now NEW r →
      db_step now d (committed now NEW r (with_bid d NEW)).

(** ** Further invariants *)

(** The bids on one auction, in the order of their insertion. *)
Definition bids_on (k : uuid) (bs : list bid) : list bid :=
  filter (λ b : bid, auction_id b = k) bs.

(** The leader fields of a row against the bids on it. *)
Definition leader_matches (r : auction) (l : list bid) : Prop :=
  match last l with
  | None => highest_bid r = Some 0 ∧ highest_bidder_id r = None
  | Some b => highest_bid r = Some (amount b)
              ∧ highest_bidder_id r = Some (bidder_id b)
  end.

Definition row_inv (t : timestamptz) (r : auction) : Prop :=
  row_ok t r
  ∧ status r ≠ cancelled
  ∧ (status r = ended → end_time r ≤ t)
  ∧ (status r = draft → highest_bid r = Some 0)
  ∧ ((highest_bid r = Some 0 ∧ highest_bidder_id r = None)
     ∨ (∃ h b, highest_bid r = Some h ∧ starting_price r ≤ h
               ∧ highest_bidder_id r = Some b)).

Definition ledger_inv (d : database) : Prop :=
  ∀ k, match auctions d !! k with
       | None => bids_on k (bids d) = []
       | Some r =>
         StronglySorted (λ b1 b2 : bid, amount b1 < amount b2) (bids_on k (bids d))
         ∧ Forall (λ b : bid, 0 < amount b
                              ∧ amount b ≤ COALESCE (highest_bid r) 0
                              ∧ bidder_id b ≠ seller_id r
                              ∧ start_time r ≤ bid_created_at b < end_time r)
             (bids_on k (bids d))
         ∧ leader_matches r (bids_on k (bids d))
       end.

Definition notifications_inv (d : database) : Prop :=
  (∀ n, n ∈ notifications d →
        ∃ k r, n_auction_id n = Some k ∧ auctions d !! k = Some r
               ∧ ((type n = new_bid ∧ user_id n = seller_id r)
                  ∨ (type n = outbid ∧ user_id n ≠ seller_id r)))
  ∧ length (filter (λ n, type n = new_bid) (notifications d)) = length (bids d)
  ∧ (length (notifications d) ≤ 2 * length (bids d))%nat.

Definition world_inv (w : world) : Prop :=
  (∀ k r, auctions (db w) !! k = Some r → row_inv (clock w) r)
  ∧ ledger_inv (db w)
  ∧ notifications_inv (db w).

(** ** Further concrete states used in examples *)

(** The lamp is listed, then bidder 2 bids 10.00, bidder 3 bids 12.00 (too
    little) and then 15.00. *)
Definition lamp_bidding : list (N * command) :=
  lamp_listing ++
  [ (1%N, PlaceBid 30%N 7%N 2%N 1000);
    (1%N, PlaceBid 31%N 7%N 3%N 1200);
    (1%N, PlaceBid 32%N 7%N 3%N 1500) ].

Definition lamp_led : auction := lamp active (Some 1500) (Some 3%N).

(** * Properties *)

(** ** Running database code *)

Ltac unfold_plpgsql :=
  unfold IF_THEN_RAISE, assign_numeric_10_2, SELECT_auction, UPDATE_auctions,
    INSERT_notification, RAISE, get, modify, statement,
    mbind, mret, plpgsql_bind, plpgsql_ret in *.

Ltac compare_times :=
  repeat match goal with
  | H : (_ <=? _) = true |- _ => apply Z.leb_le in H
  | H : (_ <=? _) = false |- _ => apply Z.leb_gt in H
  | H : (_ >? _) = true |- _ => apply Z.gtb_lt in H
  | H : (_ >? _) = false |- _ => rewrite Z.gtb_ltb in H; apply Z.ltb_ge in H
  | H : (_ <? _) = true |- _ => apply Z.ltb_lt in H
  | H : (_ <? _) = false |- _ => apply Z.ltb_ge in H
  end.

Lemma database_eq (d1 d2 : database) :
  auctions d1 = auctions d2 → bids d1 = bids d2 →
  notifications d1 = notifications d2 → d1 = d2.
Proof. destruct d1, d2; simpl; congruence. Qed.

(** [handle_new_bid] either raises, having written nothing, or commits. *)
Lemma handle_new_bid_cases now NEW d :
  (∃ e, handle_new_bid now NEW d = (inl e, d))
  ∨ (∃ r, auctions d !! auction_id NEW = Some r ∧ passes now NEW r
          ∧ handle_new_bid now NEW d = (inr (), committed now NEW r d)).
Proof.
  unfold handle_new_bid, passes, spec_minimumBid. unfold_plpgsql. simpl.
  destruct (auctions d !! auction_id NEW) as [r|] eqn:Hr; [|left; eauto].
  case_bool_decide as Hst; simpl; [left; eauto|].
  destruct (end_time r <=? now) eqn:Hend; simpl; [left; eauto|].
  case_bool_decide as Hself; simpl; [left; eauto|].
  destruct (numeric_10_2_fits (COALESCE (highest_bid r) 0)) eqn:Hfit0; simpl;
    [|left; eauto].
  destruct (COALESCE (highest_bid r) 0 =? 0) eqn:Hzero; simpl.
  - destruct (numeric_10_2_fits (starting_price r)) eqn:Hfit; simpl;
      [|left; eauto].
    destruct (amount NEW <? starting_price r) eqn:Hamt; simpl; [left; eauto|].
    right. exists r. split; [done|].
    apply Z.leb_gt in Hend. apply Z.ltb_ge in Hamt.
    split; [rewrite ?Hzero; repeat apply conj; try done; lia|].
    unfold committed, bid_notifications.
    destruct (highest_bidder_id r) as [p|]; simpl; [case_bool_decide|]; simpl;
      f_equal; apply database_eq; simpl; try done;
      by rewrite <- ?app_assoc.
  - destruct (numeric_10_2_fits (COALESCE (highest_bid r) 0 + bid_increment r))
      eqn:Hfit; simpl; [|left; eauto].
    destruct (amount NEW <? COALESCE (highest_bid r) 0 + bid_increment r)
      eqn:Hamt; simpl; [left; eauto|].
    right. exists r. split; [done|].
    apply Z.leb_gt in Hend. apply Z.ltb_ge in Hamt.
    split; [rewrite ?Hzero; repeat apply conj; try done; lia|].
    unfold committed, bid_notifications.
    destruct (highest_bidder_id r) as [p|]; simpl; [case_bool_decide|]; simpl;
      f_equal; apply database_eq; simpl; try done;
      by rewrite <- ?app_assoc.
Qed.

Lemma handle_new_bid_raises now NEW d e :
  (handle_new_bid now NEW d).1 = inl e → (handle_new_bid now NEW d).2 = d.
Proof.
  destruct (handle_new_bid_cases now NEW d) as [[e' ->]|(r & _ & _ & ->)];
    simpl; [done|discriminate].
Qed.

Lemma handle_new_bid_accepts now NEW d :
  (handle_new_bid now NEW d).1 = inr () →
  ∃ r, auctions d !! auction_id NEW = Some r ∧ passes now NEW r
       ∧ (handle_new_bid now NEW d).2 = committed now NEW r d.
Proof.
  destruct (handle_new_bid_cases now NEW d) as [[e' ->]|(r & Hr & Hp & ->)];
    simpl; [discriminate|eauto].
Qed.

Lemma committed_lookup now NEW r d k :
  auctions (committed now NEW r d) !! k
  = (λ a, if bool_decide (k = auction_id NEW)
          then set_leader (amount NEW) (bidder_id NEW) a else a)
    <$> auctions d !! k.
Proof.
  unfold committed; simpl. rewrite map_lookup_imap.
  by destruct (auctions d !! k).
Qed.

(** ** Shared lemmas on the verdict and on the phase *)

Lemma validate_run d now NEW :
  validate d now NEW
  = ordered_checks (auctions d !! auction_id NEW) now (bidder_id NEW) (amount NEW).
Proof.
  unfold validate, ordered_checks, handle_new_bid, spec_minimumBid.
  unfold_plpgsql. simpl.
  destruct (auctions d !! auction_id NEW) as [r|]; [|done].
  rewrite (bool_decide_ext (bidder_id NEW = seller_id r)
             (seller_id r = bidder_id NEW)) by done.
  destruct (bool_decide (status r ≠ active)), (end_time r <=? now),
    (bool_decide (seller_id r = bidder_id NEW)),
    (numeric_10_2_fits (COALESCE (highest_bid r) 0)),
    (COALESCE (highest_bid r) 0 =? 0); simpl; try done.
  - destruct (numeric_10_2_fits (starting_price r)),
      (amount NEW <? starting_price r); simpl; try done.
    by destruct (highest_bidder_id r); simpl; [case_bool_decide|].
  - destruct (numeric_10_2_fits _), (amount NEW <? _); simpl; try done.
    by destruct (highest_bidder_id r); simpl; [case_bool_decide|].
Qed.

Lemma list_phase_cases a now :
  (App.isUpcoming a now = true ↔ now < start_time a)
  ∧ (App.isActive a now = true
     ↔ (start_time a ≤ now < end_time a) ∧ status a ≠ ended)
  ∧ (App.isEnded a now = true ↔ end_time a ≤ now ∨ status a = ended).
Proof.
  unfold App.isUpcoming, App.isActive, App.isEnded. split; [|split].
  - apply Z.ltb_lt.
  - rewrite !andb_true_iff, negb_true_iff, bool_decide_eq_false.
    rewrite Z.geb_le, Z.ltb_lt. tauto.
  - rewrite orb_true_iff, bool_decide_eq_true, Z.geb_le. tauto.
Qed.

(** ** The bid validator *)

(** C1, as the code has it. For every database and proposed bid, the
    verdict of [handle_new_bid] is the result of this ordered procedure:
    [NotFound] if the auction does not exist; else [NotActive] if the
    persisted status is not ['active'] or the end time is not after [now]
    (the start time is not consulted); else [SelfBid] if the bidder is the
    seller; else, with the minimum bid the starting price when the highest
    bid is 0 and the highest bid plus the increment otherwise, a numeric
    overflow if the minimum does not fit [NUMERIC(10,2)]; else
    [BelowMinimum minimum] if the amount is below it; else [Accept]. *)
Theorem validate_ordered_checks d now NEW :
  validate d now NEW
  = ordered_checks (auctions d !! auction_id NEW) now (bidder_id NEW) (amount NEW).
Proof.
  unfold validate, ordered_checks, handle_new_bid, spec_minimumBid.
  unfold_plpgsql. simpl.
  destruct (auctions d !! auction_id NEW) as [r|]; [|done].
  case_bool_decide; simpl; [done|].
  destruct (end_time r <=? now); simpl; [done|].
  rewrite (bool_decide_ext (bidder_id NEW = seller_id r)
             (seller_id r = bidder_id NEW)) by done.
  case_bool_decide; simpl; [done|].
  destruct (numeric_10_2_fits (COALESCE (highest_bid r) 0)); simpl; [|done].
  destruct (COALESCE (highest_bid r) 0 =? 0); simpl.
  - destruct (numeric_10_2_fits (starting_price r)); simpl; [|done].
    destruct (amount NEW <? starting_price r); simpl; [done|].
    by destruct (highest_bidder_id r); simpl; [case_bool_decide|].
  - destruct (numeric_10_2_fits _); simpl; [|done].
    destruct (amount NEW <? _); simpl; [done|].
    by destruct (highest_bidder_id r); simpl; [case_bool_decide|].
Qed.

(** C1, as stated, fails: a ['draft'] auction inside its time window, whose
    status nobody has reconciled yet, is in the Active phase, and a bid at
    the starting price by a stranger passes the procedure of the
    specification, but the trigger function answers [NotActive]. *)
Lemma validate_rejects_unreconciled_draft :
  App.isActive (lamp draft (Some 0) None) 50 = true
  ∧ spec_validate (auctions (one_auction (lamp draft (Some 0) None)) !! 7%N)
      50 2%N 1000 = Accept
  ∧ validate (one_auction (lamp draft (Some 0) None)) 50 (bid_on_lamp 2%N 1000)
    = Reject NotActive.
Proof. by vm_compute. Qed.

(** Where the persisted status is fresh (it is ['active'] exactly when the
    auction list shows the auction as active) and the amounts fit their
    type, the trigger function and the specification agree. *)
Lemma validate_spec_validate_fresh d now NEW :
  (∀ r, auctions d !! auction_id NEW = Some r →
        (status r = active ↔ App.isActive r now = true)
        ∧ numeric_10_2_fits (COALESCE (highest_bid r) 0) = true
        ∧ numeric_10_2_fits (spec_minimumBid r) = true) →
  validate d now NEW
  = spec_validate (auctions d !! auction_id NEW) now (bidder_id NEW) (amount NEW).
Proof.
  intros Hfresh. rewrite validate_run.
  unfold ordered_checks, spec_validate.
  destruct (auctions d !! auction_id NEW) as [r|]; [|done].
  destruct (Hfresh r eq_refl) as (Hst & -> & ->). simpl.
  destruct (App.isActive r now) eqn:Hact; simpl.
  - assert (status r = active) as Hs by by apply Hst.
    unfold App.isActive in Hact.
    rewrite bool_decide_eq_false_2 by by intros ?.
    destruct (end_time r <=? now) eqn:Hend; [|done].
    apply Z.leb_le in Hend. apply andb_prop in Hact as [Hact _].
    apply andb_prop in Hact as [_ Hact]. apply Z.ltb_lt in Hact. lia.
  - case_bool_decide as Hs; [done|].
    apply Hst in Hs. congruence.
Qed.

(** The bid form asks for the same minimum as the trigger function as long
    as the highest bid is not negative. *)
Lemma AuctionRoom_minimumBid_agrees a :
  0 ≤ COALESCE (highest_bid a) 0 → AuctionRoom.minimumBid a = spec_minimumBid a.
Proof.
  unfold AuctionRoom.minimumBid, spec_minimumBid.
  destruct (highest_bid a) as [h|]; simpl; [|done]. intros Hh.
  destruct (h >? 0) eqn:Hpos, (h =? 0) eqn:Hz; try done; lia.
Qed.

(** ** The notification dispatcher *)

(** C2. For every accepted bid, the notifications created are appended to
    the table; exactly one of them is of kind [new_bid], and it is for the
    seller; one of kind [outbid] is created for the previous leader when
    there is one and it is not the new bidder, and none of that kind
    otherwise; every notification created is one of these two; and none is
    for the new bidder. *)
Theorem accepted_bid_notifications now NEW d r :
  auctions d !! auction_id NEW = Some r →
  (handle_new_bid now NEW d).1 = inr () →
  ∃ created,
    notifications (handle_new_bid now NEW d).2 = notifications d ++ created
    ∧ length (filter (λ n, type n = new_bid) created) = 1%nat
    ∧ length (filter (λ n, type n = new_bid ∧ user_id n = seller_id r) created)
      = 1%nat
    ∧ (∀ p, highest_bidder_id r = Some p → p ≠ bidder_id NEW →
            length (filter (λ n, type n = outbid) created) = 1%nat
            ∧ length (filter (λ n, type n = outbid ∧ user_id n = p) created)
              = 1%nat)
    ∧ (highest_bidder_id r = None ∨ highest_bidder_id r = Some (bidder_id NEW) →
       filter (λ n, type n = outbid) created = [])
    ∧ (∀ n, n ∈ created → type n = new_bid ∨ type n = outbid)
    ∧ filter (λ n, user_id n = bidder_id NEW) created = [].
Proof.
  intros Hr Hok.
  destruct (handle_new_bid_accepts _ _ _ Hok) as (r' & Hr' & Hp & ->).
  assert (r' = r) as -> by congruence.
  destruct Hp as (_ & _ & Hself & _).
  exists (bid_notifications now NEW r). split; [done|].
  unfold bid_notifications.
  destruct (highest_bidder_id r) as [p|] eqn:Hprev; [case_bool_decide as Hp|].
  - repeat apply conj.
    + by rewrite filter_cons_True, filter_cons_False, filter_nil by (simpl; done).
    + by rewrite filter_cons_True, filter_cons_False, filter_nil
        by (simpl; intuition discriminate).
    + intros ? [= <-] _. split.
      * by rewrite filter_cons_False, filter_cons_True, filter_nil by (simpl; done).
      * by rewrite filter_cons_False, filter_cons_True, filter_nil
          by (simpl; intuition discriminate).
    + intros [?|[= ?]]; [discriminate|done].
    + intros n Hn. apply elem_of_cons in Hn as [->|Hn]; [by left|].
      apply list_elem_of_singleton in Hn as ->. by right.
    + by rewrite !filter_cons_False, filter_nil by (simpl; congruence).
  - subst p. repeat apply conj.
    + by rewrite filter_cons_True, filter_nil by (simpl; done).
    + by rewrite filter_cons_True, filter_nil by (simpl; done).
    + intros ? [= <-] ?. done.
    + intros _. by rewrite filter_cons_False, filter_nil by (simpl; done).
    + intros n Hn. apply list_elem_of_singleton in Hn as ->. by left.
    + by rewrite filter_cons_False, filter_nil by (simpl; congruence).
  - repeat apply conj.
    + by rewrite filter_cons_True, filter_nil by (simpl; done).
    + by rewrite filter_cons_True, filter_nil by (simpl; done).
    + intros ? [=].
    + intros _. by rewrite filter_cons_False, filter_nil by (simpl; done).
    + intros n Hn. apply list_elem_of_singleton in Hn as ->. by left.
    + by rewrite filter_cons_False, filter_nil by (simpl; congruence).
Qed.

(** The scenario of the specification: leader 2 is outbid by bidder 3. *)
Lemma accepted_bid_notifications_witness :
  ∃ created,
    notifications
      (handle_new_bid 50 (bid_on_lamp 3%N 1500)
         (one_auction (lamp active (Some 1000) (Some 2%N)))).2
    = [] ++ created
    ∧ length (filter (λ n, type n = new_bid ∧ user_id n = 1%N) created) = 1%nat
    ∧ length (filter (λ n, type n = outbid ∧ user_id n = 2%N) created) = 1%nat
    ∧ filter (λ n, user_id n = 3%N) created = [].
Proof.
  destruct (accepted_bid_notifications 50 (bid_on_lamp 3%N 1500)
              (one_auction (lamp active (Some 1000) (Some 2%N)))
              (lamp active (Some 1000) (Some 2%N)) eq_refl eq_refl)
    as (created & Happ & _ & Hseller & Hprev & _ & _ & Hbidder).
  exists created. split; [exact Happ|]. split; [exact Hseller|].
  split; [|exact Hbidder].
  apply (Hprev 2%N); [reflexivity|discriminate].
Defined.

(** ** The phase of an auction *)

(** C3, as the code has it. In the auction list, an auction is upcoming if
    and only if [now < start_time]; active if and only if
    [start_time ≤ now < end_time] and the persisted status is not ['ended'];
    ended if and only if [end_time ≤ now] or the persisted status is
    ['ended']. The status ['cancelled'] plays no part. *)
Theorem App_phase a now :
  (App.isUpcoming a now = true ↔ now < start_time a)
  ∧ (App.isActive a now = true
     ↔ (start_time a ≤ now < end_time a) ∧ status a ≠ ended)
  ∧ (App.isEnded a now = true ↔ end_time a ≤ now ∨ status a = ended).
Proof.
  unfold App.isUpcoming, App.isActive, App.isEnded. split; [|split].
  - apply Z.ltb_lt.
  - rewrite !andb_true_iff, negb_true_iff, bool_decide_eq_false.
    rewrite Z.geb_le, Z.ltb_lt. tauto.
  - rewrite orb_true_iff, bool_decide_eq_true, Z.geb_le. tauto.
Qed.

(** C3, as stated, fails on a cancelled auction inside its time window: the
    auction list shows it as active and not as ended. *)
Lemma cancelled_auction_is_shown_active :
  let a := lamp cancelled (Some 0) None in
  ¬ (App.isActive a 50 = true
     ↔ (start_time a ≤ 50 < end_time a)
       ∧ status a ≠ ended ∧ status a ≠ cancelled)
  ∧ ¬ (App.isEnded a 50 = true
       ↔ end_time a ≤ 50 ∨ status a = ended ∨ status a = cancelled).
Proof.
  simpl. split.
  - intros [H _]. by destruct (H eq_refl) as (_ & _ & ?).
  - intros [_ H]. discriminate H. by right; right.
Qed.

(** The card and the room of an auction compare strictly and leave the
    status out of [isActive]. *)
Lemma AuctionCard_phase a now :
  (AuctionCard.isUpcoming a now = true ↔ now < start_time a)
  ∧ (AuctionCard.isActive a now = true ↔ start_time a < now < end_time a)
  ∧ (AuctionCard.isEnded a now = true ↔ end_time a < now ∨ status a = ended).
Proof.
  unfold AuctionCard.isUpcoming, AuctionCard.isActive, AuctionCard.isEnded,
    AuctionCard.isBefore, AuctionCard.isAfter. split; [|split].
  - apply Z.ltb_lt.
  - rewrite andb_true_iff, Z.gtb_lt, Z.ltb_lt. tauto.
  - rewrite orb_true_iff, bool_decide_eq_true, Z.gtb_lt. tauto.
Qed.

(** At the very start and at the very end of the window the card shows no
    phase at all, where the list shows active and ended. *)
Example AuctionCard_at_the_boundaries :
  let a := lamp active (Some 0) None in
  (AuctionCard.isUpcoming a 0, AuctionCard.isActive a 0, AuctionCard.isEnded a 0)
  = (false, false, false)
  ∧ App.isActive a 0 = true
  ∧ (AuctionCard.isUpcoming a 100, AuctionCard.isActive a 100,
     AuctionCard.isEnded a 100) = (false, false, false)
  ∧ App.isEnded a 100 = true.
Proof. by vm_compute. Qed.

(** ** Rejected bids *)

Lemma INSERT_INTO_bids_cases now id a b amt d :
  let NEW := {| bid_id := id; auction_id := a; bidder_id := b; amount := amt;
                bid_created_at := now |} in
  let d1 := {| auctions := auctions d; bids := bids d ++ [NEW];
               notifications := notifications d |} in
  (amt ≤ 0 ∧ INSERT_INTO_bids now id a b amt d = (inl check_violation, d))
  ∨ (0 < amt ∧ INSERT_INTO_bids now id a b amt d = handle_new_bid now NEW d1).
Proof.
  unfold INSERT_INTO_bids. unfold_plpgsql. simpl.
  destruct (amt >? 0) eqn:Hamt; simpl.
  - right. split; [lia|done].
  - left. split; [lia|done].
Qed.

(** C4. When the insertion of a bid raises, for whatever reason, the
    database after the statement is the database before it: no bid row, no
    change to any auction, no notification. Moreover nothing but the bid
    row had been written when the exception was raised: every check of the
    trigger function comes before its first write. *)
Theorem rejected_bid_changes_nothing now id a b amt d e :
  (INSERT_INTO_bids now id a b amt d).1 = inl e →
  (exec now (PlaceBid id a b amt) d).1 = inl e
  ∧ (exec now (PlaceBid id a b amt) d).2 = d
  ∧ auctions (INSERT_INTO_bids now id a b amt d).2 = auctions d
  ∧ notifications (INSERT_INTO_bids now id a b amt d).2 = notifications d.
Proof.
  intros Hrej. unfold exec, statement.
  destruct (INSERT_INTO_bids_cases now id a b amt d) as [[_ Heq]|[_ Heq]];
    rewrite Heq in *; simpl in *; [done|].
  pose proof (handle_new_bid_raises _ _ _ _ Hrej) as Hsame.
  destruct (handle_new_bid _ _ _) as [[e'|[]] d']; simpl in *; [|done].
  by subst d'.
Qed.

(** The seller of the lamp bids on it: nothing is left of the attempt. *)
Lemma rejected_bid_changes_nothing_witness :
  (exec 50 (PlaceBid 30%N 7%N 1%N 1000)
     (one_auction (lamp active (Some 0) None))).1
  = inl Sellers_cannot_bid_on_their_own_auctions
  ∧ (exec 50 (PlaceBid 30%N 7%N 1%N 1000)
       (one_auction (lamp active (Some 0) None))).2
    = one_auction (lamp active (Some 0) None)
  ∧ auctions (INSERT_INTO_bids 50 30%N 7%N 1%N 1000
                (one_auction (lamp active (Some 0) None))).2
    = auctions (one_auction (lamp active (Some 0) None))
  ∧ notifications (INSERT_INTO_bids 50 30%N 7%N 1%N 1000
                     (one_auction (lamp active (Some 0) None))).2
    = notifications (one_auction (lamp active (Some 0) None)).
Proof.
  apply (rejected_bid_changes_nothing 50 30%N 7%N 1%N 1000
           (one_auction (lamp active (Some 0) None))
           Sellers_cannot_bid_on_their_own_auctions).
  reflexivity.
Defined.

(** ** Reconciliation of the persisted status *)

Lemma update_auction_status_run now d :
  update_auction_status now d
  = (inr (), {| auctions := reconciled now <$> auctions d;
                bids := bids d; notifications := notifications d |}).
Proof.
  unfold update_auction_status. unfold_plpgsql. simpl.
  f_equal. apply database_eq; simpl; try done.
  apply map_eq; intros k.
  rewrite !map_lookup_imap, lookup_fmap.
  by destruct (auctions d !! k).
Qed.

Lemma set_status_same a : set_status (status a) a = a.
Proof. by destruct a. Qed.

(** The row after reconciliation, by the status and the times before it. *)
Lemma reconciled_status now a :
  reconciled now a = set_status (status (reconciled now a)) a
  ∧ status (reconciled now a)
    = match status a with
      | draft => if end_time a <=? now then ended
                 else if start_time a <=? now then active else draft
      | active => if end_time a <=? now then ended else active
      | ended => ended
      | cancelled => cancelled
      end.
Proof.
  unfold reconciled. destruct a as [? ? ? ? ? st en s ? ? ?]; simpl.
  destruct s; simpl;
    destruct (st <=? now) eqn:H1, (en >? now) eqn:H2, (en <=? now) eqn:H3;
    simpl; rewrite ?H1, ?H2, ?H3; simpl; try done; compare_times; lia.
Qed.

Lemma reconciled_idempotent now a :
  reconciled now (reconciled now a) = reconciled now a.
Proof.
  unfold reconciled. destruct a as [? ? ? ? ? st en s ? ? ?]; simpl.
  destruct s; simpl;
    destruct (st <=? now) eqn:H1, (en >? now) eqn:H2, (en <=? now) eqn:H3;
    repeat (simpl; rewrite ?H1, ?H2, ?H3); try done; compare_times; lia.
Qed.

(** C7. [update_auction_status] never raises, leaves the bids and the
    notifications alone, and neither adds nor removes an auction; of every
    auction it changes at most the status: a ['draft'] auction with
    [start_time ≤ now < end_time] becomes ['active'], a ['draft'] or
    ['active'] auction with [end_time ≤ now] becomes ['ended'], and every
    other auction is left as it was. *)
Theorem update_auction_status_spec now d k a :
  auctions d !! k = Some a →
  (update_auction_status now d).1 = inr ()
  ∧ bids (update_auction_status now d).2 = bids d
  ∧ notifications (update_auction_status now d).2 = notifications d
  ∧ dom (auctions (update_auction_status now d).2) = dom (auctions d)
  ∧ ∃ a', auctions (update_auction_status now d).2 !! k = Some a'
      ∧ a' = set_status (status a') a
      ∧ (status a = draft → start_time a ≤ now < end_time a →
         status a' = active)
      ∧ (status a = draft ∨ status a = active → end_time a ≤ now →
         status a' = ended)
      ∧ (¬ (status a = draft ∧ start_time a ≤ now < end_time a) →
         ¬ ((status a = draft ∨ status a = active) ∧ end_time a ≤ now) →
         a' = a).
Proof.
  intros Hk. rewrite update_auction_status_run; simpl.
  repeat apply conj; try done.
  { apply dom_fmap_L. }
  exists (reconciled now a). rewrite lookup_fmap, Hk; simpl.
  destruct (reconciled_status now a) as [Heq Hst].
  repeat apply conj; try done.
  - intros Hd [? ?]. rewrite Hst, Hd.
    destruct (end_time a <=? now) eqn:H1, (start_time a <=? now) eqn:H2;
      try done; compare_times; lia.
  - intros Hs ?. rewrite Hst.
    destruct Hs as [-> | ->];
      destruct (end_time a <=? now) eqn:H1; try done; compare_times; lia.
  - intros Hn1 Hn2. rewrite Heq, Hst.
    destruct (status a) eqn:Hs;
      destruct (end_time a <=? now) eqn:H1,
               (start_time a <=? now) eqn:H2; compare_times;
      try (rewrite <- Hs; apply set_status_same);
      first [ exfalso; apply Hn1; split; [done|lia]
            | exfalso; apply Hn2; split; [by auto|lia] ].
Qed.

Lemma update_auction_status_spec_witness :
  ∃ a', auctions
          (update_auction_status 50 (one_auction (lamp draft (Some 0) None))).2
        !! 7%N = Some a'
        ∧ status a' = active.
Proof.
  destruct (update_auction_status_spec 50
              (one_auction (lamp draft (Some 0) None)) 7%N
              (lamp draft (Some 0) None) eq_refl)
    as (_ & _ & _ & _ & a' & Ha' & _ & Hact & _).
  exists a'. split; [exact Ha'|].
  apply Hact; [reflexivity | simpl; lia].
Defined.


(** C8. Running [update_auction_status] a second time at the same [now]
    gives the same result and the same database as running it once. *)
Theorem update_auction_status_idempotent now d :
  update_auction_status now (update_auction_status now d).2
  = update_auction_status now d.
Proof.
  rewrite !update_auction_status_run; simpl.
  f_equal. apply database_eq; simpl; try done.
  apply map_eq; intros k. rewrite !lookup_fmap.
  destruct (auctions d !! k); simpl; [|done].
  by rewrite reconciled_idempotent.
Qed.

(** ** What one command does to one auction *)

Lemma INSERT_INTO_auctions_cases now id seller ttl descr price incr st en s d :
  (∃ e, INSERT_INTO_auctions now id seller ttl descr price incr st en s d
        = (inl e, d))
  ∨ (0 < price ∧ 0 < incr ∧ st < en ∧ auctions d !! id = None
     ∧ INSERT_INTO_auctions now id seller ttl descr price incr st en s d
       = (inr (),
          {| auctions :=
               <[ id := set_status s
                          (created_row now seller ttl descr price incr st en) ]>
                 (auctions d);
             bids := bids d; notifications := notifications d |})).
Proof.
  unfold INSERT_INTO_auctions. unfold_plpgsql. simpl.
  destruct (price >? 0) eqn:H1; simpl; [|left; eauto].
  destruct (incr >? 0) eqn:H2; simpl; [|left; eauto].
  destruct (en >? st) eqn:H3; simpl; [|left; eauto].
  case_bool_decide as Hk; simpl; [left; eauto|].
  right. compare_times. repeat apply conj; try done.
  by apply eq_None_not_Some.
Qed.

Lemma exec_row_step now c d k :
  row_step now (auctions d !! k) (auctions (exec now c d).2 !! k).
Proof.
  unfold exec, statement. destruct c as [id seller ttl descr price incr st en| |id a b amt].
  - destruct (INSERT_INTO_auctions_cases now id seller ttl descr price incr st en
                draft d) as [[e ->]|(? & ? & ? & Hfresh & ->)]; simpl; [done|].
    destruct (decide (k = id)) as [->|Hne].
    + rewrite lookup_insert_eq, Hfresh. by constructor.
    + by rewrite lookup_insert_ne.
  - rewrite update_auction_status_run; simpl. rewrite lookup_fmap.
    destruct (auctions d !! k); simpl; by constructor.
  - destruct (INSERT_INTO_bids_cases now id a b amt d) as [[_ ->]|[_ ->]];
      simpl; [done|].
    match goal with |- context [handle_new_bid now ?N ?D] =>
      destruct (handle_new_bid_cases now N D) as [[e ->]|(r & Hr & Hp & ->)]
    end; [by simpl|]. cbn [fst snd]. simpl in Hr.
    rewrite committed_lookup; simpl.
    destruct (decide (k = a)) as [->|Hne].
    + rewrite Hr; simpl. rewrite bool_decide_eq_true_2 by done.
      by apply (row_outbid now (mk_bid id a b amt now)).
    + destruct (auctions d !! k); simpl; [|done].
      by rewrite bool_decide_eq_false_2.
Qed.

(** An accepted bid, seen from the statement that inserts it. *)
Lemma PlaceBid_accepted now id a b amt d :
  (exec now (PlaceBid id a b amt) d).1 = inr () →
  ∃ r, auctions d !! a = Some r
       ∧ passes now (mk_bid id a b amt now) r
       ∧ auctions (exec now (PlaceBid id a b amt) d).2 !! a
         = Some (set_leader amt b r).
Proof.
  unfold exec, statement.
  destruct (INSERT_INTO_bids_cases now id a b amt d) as [[_ ->]|[_ ->]];
    simpl; [done|].
  match goal with |- context [handle_new_bid now ?N ?D] =>
    destruct (handle_new_bid_cases now N D) as [[e ->]|(r & Hr & Hp & ->)]
  end; [by simpl|]. cbn [fst snd]. simpl in Hr. intros _.
  exists r. repeat apply conj; try done; try apply Hp.
  rewrite committed_lookup; simpl. rewrite Hr; simpl.
  by rewrite bool_decide_eq_true_2.
Qed.

(** ** Invariants of the rows *)

Lemma row_step_ok t now o o' r' :
  row_step now o o' → t ≤ now →
  (∀ r, o = Some r → row_ok t r) → o' = Some r' → row_ok now r'.
Proof.
  intros Hstep Ht Hok Hr'. destruct Hstep as [o| | a | NEW r Hp].
  - destruct (Hok r' Hr') as (? & ? & ? & Hact & ?).
    repeat apply conj; try done. intros Hs. specialize (Hact Hs). lia.
  - injection Hr' as <-. by repeat apply conj.
  - injection Hr' as <-. destruct (Hok a eq_refl) as (? & ? & ? & Hact & ?).
    destruct (reconciled_status now a) as [Heq Hst].
    rewrite Heq. repeat apply conj; simpl; try done.
    rewrite Hst. destruct (status a) eqn:Hs; try done.
    + destruct (end_time a <=? now) eqn:Hend; [done|].
      destruct (start_time a <=? now) eqn:Hstart; [|done].
      intros _. by compare_times.
    + destruct (end_time a <=? now) eqn:Hend; [done|].
      intros _. specialize (Hact eq_refl). lia.
  - injection Hr' as <-. destruct (Hok r eq_refl) as (? & ? & ? & Hact & ?).
    destruct Hp as (? & ? & Hself & _).
    repeat apply conj; simpl; try done.
    + intros Hs. specialize (Hact Hs). lia.
    + congruence.
Qed.

Lemma step_rows_ok w ev : rows_ok w → rows_ok (step w ev).
Proof.
  intros Hok k r' Hr'. unfold step in *; simpl in *.
  eapply (row_step_ok (clock w)); [apply exec_row_step|lia| |exact Hr'].
  intros r Hr. by apply (Hok k).
Qed.

Lemma run_rows_ok w evs : rows_ok w → rows_ok (run w evs).
Proof.
  revert w. induction evs as [|ev evs IH]; intros w Hok; simpl; [done|].
  apply IH. by apply step_rows_ok.
Qed.

Lemma initial_rows_ok t0 : rows_ok (initial_world t0).
Proof. intros k r Hr. simpl in Hr. by rewrite lookup_empty in Hr. Qed.

Lemma reachable_rows_ok t0 evs : rows_ok (run (initial_world t0) evs).
Proof. apply run_rows_ok, initial_rows_ok. Qed.

Lemma row_step_Some now a o' :
  row_step now (Some a) o' →
  ∃ a', o' = Some a'
        ∧ (status a = ended ∨ status a = cancelled → status a' = status a)
        ∧ (0 < starting_price a → 0 < bid_increment a →
           COALESCE (highest_bid a) 0 ≤ COALESCE (highest_bid a') 0).
Proof.
  intros Hstep. inversion Hstep as [o| | a0 | NEW r Hp]; subst.
  - exists a. by repeat apply conj; try done; lia.
  - exists (reconciled now a). destruct (reconciled_status now a) as [Heq Hst].
    repeat apply conj; try done.
    + rewrite Hst. by intros [-> | ->].
    + intros _ _. rewrite Heq; simpl. lia.
  - exists (set_leader (amount NEW) (bidder_id NEW) a).
    repeat apply conj; try done. intros Hprice Hincr; simpl.
    destruct Hp as (_ & _ & _ & _ & _ & Hmin). unfold spec_minimumBid in Hmin.
    destruct (COALESCE (highest_bid a) 0 =? 0) eqn:Hz; lia.
Qed.

(** ** The phase at the time of an accepted bid *)

(** C5. In every state reached from the empty database by creating
    auctions, reconciling and bidding, a bid is accepted only on an auction
    in its Active phase: the start time has come, the end time has not,
    and the persisted status is ['active'], hence neither ['ended'] nor
    ['cancelled']. *)
Theorem no_bid_outside_active_phase t0 evs dt id a b amt r :
  auctions (db (run (initial_world t0) evs)) !! a = Some r →
  (exec (clock (run (initial_world t0) evs) + Z.of_N dt)
     (PlaceBid id a b amt) (db (run (initial_world t0) evs))).1 = inr () →
  App.isActive r (clock (run (initial_world t0) evs) + Z.of_N dt) = true
  ∧ start_time r ≤ clock (run (initial_world t0) evs) + Z.of_N dt < end_time r
  ∧ status r = active.
Proof.
  intros Hr Hacc.
  destruct (PlaceBid_accepted _ _ _ _ _ _ Hacc) as (r' & Hr' & Hp & _).
  assert (r' = r) as -> by congruence.
  destruct Hp as (Hst & Hend & _).
  destruct (reachable_rows_ok t0 evs a r Hr) as (_ & _ & _ & Hstart & _).
  specialize (Hstart Hst).
  assert (start_time r ≤ clock (run (initial_world t0) evs) + Z.of_N dt
          < end_time r) as Hwin by lia.
  repeat apply conj; try done; try lia.
  apply list_phase_cases. split; [done|]. by rewrite Hst.
Qed.

Lemma no_bid_outside_active_phase_witness :
  App.isActive (lamp active (Some 0) None) 50 = true
  ∧ start_time (lamp active (Some 0) None) ≤ 50
    < end_time (lamp active (Some 0) None)
  ∧ status (lamp active (Some 0) None) = active.
Proof.
  apply (no_bid_outside_active_phase 0 lamp_listing 0 30%N 7%N 2%N 1000
           (lamp active (Some 0) None)).
  - vm_compute. reflexivity.
  - vm_compute. reflexivity.
Defined.

(** ** The seller and the leader *)

(** C6. Whatever the auction and the amount, a bid by the seller of the
    auction is not accepted: the trigger function answers [NotActive] or
    [SelfBid], and the insertion raises. Consequently, in every state
    reached from the empty database by creating auctions, reconciling and
    bidding, the leader of an auction is not its seller. *)
Theorem seller_never_leads :
  (∀ d now id a b amt r,
     auctions d !! a = Some r → b = seller_id r →
     (validate d now (mk_bid id a b amt now) = Reject NotActive
      ∨ validate d now (mk_bid id a b amt now) = Reject SelfBid)
     ∧ (exec now (PlaceBid id a b amt) d).1 ≠ inr ())
  ∧ (∀ t0 evs k r,
       auctions (db (run (initial_world t0) evs)) !! k = Some r →
       highest_bidder_id r ≠ Some (seller_id r)).
Proof.
  split.
  - intros d now id a b amt r Hr ->. split.
    + rewrite validate_run; simpl. rewrite Hr; simpl.
      destruct (_ || _); [by left|]. right.
      by rewrite bool_decide_eq_true_2.
    + intros Hacc.
      destruct (PlaceBid_accepted _ _ _ _ _ _ Hacc) as (r' & Hr' & Hp & _).
      assert (r' = r) as -> by congruence.
      by destruct Hp as (_ & _ & Hself & _).
  - intros t0 evs k r Hr.
    by destruct (reachable_rows_ok t0 evs k r Hr) as (_ & _ & _ & _ & ?).
Qed.

Lemma seller_never_leads_witness :
  (validate (one_auction (lamp active (Some 0) None)) 50
     (mk_bid 30%N 7%N 1%N 999999 50) = Reject NotActive
   ∨ validate (one_auction (lamp active (Some 0) None)) 50
       (mk_bid 30%N 7%N 1%N 999999 50) = Reject SelfBid)
  ∧ highest_bidder_id (lamp active (Some 0) None) ≠ Some 1%N.
Proof.
  split.
  - apply (proj1 seller_never_leads
             (one_auction (lamp active (Some 0) None)) 50 30%N 7%N 1%N 999999
             (lamp active (Some 0) None)); reflexivity.
  - apply (proj2 seller_never_leads 0 lamp_listing 7%N
             (lamp active (Some 0) None)).
    vm_compute. reflexivity.
Defined.

(** ** Monotonicity *)

Lemma run_row w evs k a :
  auctions (db w) !! k = Some a →
  ∃ a', auctions (db (run w evs)) !! k = Some a'
        ∧ (status a = ended ∨ status a = cancelled → status a' = status a)
        ∧ (rows_ok w →
           COALESCE (highest_bid a) 0 ≤ COALESCE (highest_bid a') 0).
Proof.
  revert w a. induction evs as [|ev evs IH]; intros w a Ha; simpl.
  { exists a. by repeat apply conj; try done; lia. }
  pose proof (exec_row_step (clock w + Z.of_N ev.1) ev.2 (db w) k) as Hstep.
  rewrite Ha in Hstep.
  apply row_step_Some in Hstep as (a1 & Ha1 & Hterm1 & Hhigh1).
  destruct (IH (step w ev) a1 Ha1) as (a' & Ha' & Hterm & Hhigh).
  exists a'. repeat apply conj; try done.
  - intros Hs. specialize (Hterm1 Hs). rewrite <- Hterm1.
    apply Hterm. by rewrite Hterm1.
  - intros Hok. destruct (Hok k a Ha) as (? & ? & _).
    specialize (Hhigh (step_rows_ok w ev Hok)). specialize (Hhigh1 ltac:(done) ltac:(done)).
    lia.
Qed.

(** C9. Under any sequence of commands (creations, reconciliations and
    bids, at any times), from any database, an auction whose status is
    ['ended'] or ['cancelled'] keeps that status: it never returns to
    ['draft'] or ['active']. *)
Theorem terminal_status_is_final w evs k a :
  auctions (db w) !! k = Some a →
  status a = ended ∨ status a = cancelled →
  ∃ a', auctions (db (run w evs)) !! k = Some a'
        ∧ status a' = status a
        ∧ status a' ≠ draft ∧ status a' ≠ active.
Proof.
  intros Ha Hs. destruct (run_row w evs k a Ha) as (a' & Ha' & Hterm & _).
  exists a'. specialize (Hterm Hs).
  repeat apply conj; try done; rewrite Hterm; by destruct Hs as [-> | ->].
Qed.

Lemma terminal_status_is_final_witness :
  ∃ a', auctions
          (db (run (mk_world 200 (one_auction (lamp ended (Some 1000) (Some 2%N))))
                 [ (5%N, ReconcileStatuses); (5%N, PlaceBid 31%N 7%N 3%N 5000);
                   (5%N, ReconcileStatuses) ]))
        !! 7%N = Some a'
        ∧ status a' = status (lamp ended (Some 1000) (Some 2%N))
        ∧ status a' ≠ draft ∧ status a' ≠ active.
Proof.
  apply (terminal_status_is_final
           (mk_world 200 (one_auction (lamp ended (Some 1000) (Some 2%N))))).
  - reflexivity.
  - left. reflexivity.
Defined.

(** A created auction starts without a bid. *)
Lemma CreateAuction_starts_at_zero now id seller ttl descr price incr st en d :
  (exec now (CreateAuction id seller ttl descr price incr st en) d).1 = inr () →
  ∃ a, auctions (exec now (CreateAuction id seller ttl descr price incr st en) d).2
       !! id = Some a
       ∧ status a = draft ∧ highest_bid a = Some 0 ∧ highest_bidder_id a = None.
Proof.
  unfold exec, statement.
  destruct (INSERT_INTO_auctions_cases now id seller ttl descr price incr st en
              draft d) as [[e ->]|(_ & _ & _ & _ & ->)]; simpl; [done|].
  intros _. eexists. by rewrite lookup_insert_eq.
Qed.

(** C10. In every state reached from the empty database by creating
    auctions, reconciling and bidding, an accepted bid makes its amount the
    highest bid of the auction, and that amount is greater than the highest
    bid before; and over any further sequence of commands the highest bid
    of an auction never gets lower. *)
Theorem highest_bid_never_decreases t0 evs k a :
  auctions (db (run (initial_world t0) evs)) !! k = Some a →
  (∀ now id b amt,
     (exec now (PlaceBid id k b amt) (db (run (initial_world t0) evs))).1
     = inr () →
     ∃ a', auctions (exec now (PlaceBid id k b amt)
                       (db (run (initial_world t0) evs))).2 !! k = Some a'
           ∧ highest_bid a' = Some amt
           ∧ COALESCE (highest_bid a) 0 < amt)
  ∧ (∀ evs',
       ∃ a', auctions (db (run (run (initial_world t0) evs) evs')) !! k = Some a'
             ∧ COALESCE (highest_bid a) 0 ≤ COALESCE (highest_bid a') 0).
Proof.
  intros Ha. pose proof (reachable_rows_ok t0 evs) as Hok. split.
  - intros now id b amt Hacc.
    destruct (PlaceBid_accepted _ _ _ _ _ _ Hacc) as (r & Hr & Hp & Hnew).
    assert (r = a) as -> by congruence.
    exists (set_leader amt b a). repeat apply conj; try done.
    destruct (Hok k a Ha) as (Hprice & Hincr & _).
    destruct Hp as (_ & _ & _ & _ & _ & Hmin).
    unfold spec_minimumBid in Hmin; simpl in Hmin.
    destruct (COALESCE (highest_bid a) 0 =? 0) eqn:Hz; lia.
  - intros evs'.
    destruct (run_row _ evs' k a Ha) as (a' & Ha' & _ & Hhigh).
    exists a'. split; [done|]. by apply Hhigh.
Qed.

Lemma highest_bid_never_decreases_witness :
  ∃ a', auctions
          (db (run (run (initial_world 0) lamp_listing)
                 [ (1%N, PlaceBid 30%N 7%N 2%N 1000);
                   (1%N, PlaceBid 31%N 7%N 3%N 1200);
                   (1%N, PlaceBid 32%N 7%N 3%N 1500) ])) !! 7%N = Some a'
        ∧ COALESCE (highest_bid (lamp active (Some 0) None)) 0
          ≤ COALESCE (highest_bid a') 0.
Proof.
  apply (highest_bid_never_decreases 0 lamp_listing 7%N
           (lamp active (Some 0) None)).
  vm_compute. reflexivity.
Defined.

(** The scenario of the specification: starting price 10, increment 5. *)
Example bidding_scenario :
  let w := run (initial_world 0) lamp_listing in
  validate (db w) 51 (mk_bid 30%N 7%N 2%N 500 51) = Reject (BelowMinimum 1000)
  ∧ validate (db w) 51 (mk_bid 30%N 7%N 2%N 1000 51) = Accept
  ∧ let w1 := step w (1%N, PlaceBid 30%N 7%N 2%N 1000) in
    validate (db w1) 52 (mk_bid 31%N 7%N 3%N 1200 52) = Reject (BelowMinimum 1500)
    ∧ validate (db w1) 52 (mk_bid 31%N 7%N 3%N 1500 52) = Accept
    ∧ length (bids (db w1)) = 1%nat.
Proof. by vm_compute. Qed.

(** * Further properties *)

(** ** What one command does to the database *)

Lemma committed_auctions now NEW r r' d :
  auctions d !! auction_id NEW = Some r →
  auctions (committed now NEW r' d)
  = <[ auction_id NEW := set_leader (amount NEW) (bidder_id NEW) r ]> (auctions d).
Proof.
  intros Hr. apply map_eq; intros k. rewrite committed_lookup.
  destruct (decide (k = auction_id NEW)) as [->|Hne].
  - rewrite lookup_insert_eq, Hr; simpl. by rewrite bool_decide_eq_true_2.
  - rewrite lookup_insert_ne by done.
    destruct (auctions d !! k); simpl; [|done].
    by rewrite bool_decide_eq_false_2.
Qed.

Lemma exec_db_step now c d : db_step now d (exec now c d).2.
Proof.
  unfold exec, statement.
  destruct c as [id seller ttl descr price incr st en| |id a b amt].
  - destruct (INSERT_INTO_auctions_cases now id seller ttl descr price incr st en
                draft d) as [[e ->]|(? & ? & ? & Hfresh & ->)]; simpl.
    + constructor.
    + by apply db_created.
  - rewrite update_auction_status_run; simpl. constructor.
  - destruct (INSERT_INTO_bids_cases now id a b amt d) as [[_ ->]|[Hpos ->]];
      simpl; [constructor|].
    match goal with |- context [handle_new_bid now ?N ?D] =>
      destruct (handle_new_bid_cases now N D) as [[e ->]|(r & Hr & Hp & ->)]
    end; [constructor|]. cbn [fst snd]. simpl in Hr.
    by apply (db_bid now d (mk_bid id a b amt now) r).
Qed.

Lemma passes_raises now NEW r :
  passes now NEW r → 0 < starting_price r → 0 < bid_increment r →
  COALESCE (highest_bid r) 0 < amount NEW.
Proof.
  intros (_ & _ & _ & _ & _ & Hmin) Hprice Hincr.
  unfold spec_minimumBid in Hmin.
  destruct (COALESCE (highest_bid r) 0 =? 0) eqn:Hz; lia.
Qed.

(** ** The invariant of the rows, of the bids and of the notifications *)

Lemma row_step_inv t now o o' r' :
  row_step now o o' → t ≤ now →
  (∀ r, o = Some r → row_inv t r) → o' = Some r' → row_inv now r'.
Proof.
  intros Hstep Ht Hinv Hr'. split.
  { eapply row_step_ok; [done..| |done]. intros r Hr. by apply Hinv. }
  destruct Hstep as [o| | a | NEW r Hp].
  - destruct (Hinv r' Hr') as (_ & ? & Hended & ? & ?).
    repeat apply conj; try done. intros Hs. specialize (Hended Hs). lia.
  - injection Hr' as <-; simpl. repeat apply conj; try done. by left.
  - injection Hr' as <-.
    destruct (Hinv a eq_refl) as (_ & Hc & Hended & Hdraft & Hlead).
    destruct (reconciled_status now a) as [Heq Hst]. rewrite Hst.
    repeat apply conj.
    + destruct (status a) eqn:Hs; repeat case_match; done.
    + rewrite Heq; simpl.
      destruct (status a) eqn:Hs; try done.
      * destruct (end_time a <=? now) eqn:Hend;
          [intros _; by compare_times|by case_match].
      * destruct (end_time a <=? now) eqn:Hend; [intros _; by compare_times|done].
      * intros _. specialize (Hended eq_refl). lia.
    + rewrite Heq; simpl. destruct (status a) eqn:Hs; try done;
        repeat case_match; try done; intros _; by apply Hdraft.
    + by rewrite Heq.
  - injection Hr' as <-.
    destruct (Hinv r eq_refl) as ((Hprice & Hincr & _) & Hc & Hended & Hdraft & Hlead).
    pose proof (passes_raises _ _ _ Hp Hprice Hincr) as Hup.
    destruct Hp as (Hst & _ & _ & _ & _ & Hmin). simpl.
    repeat apply conj; try (rewrite Hst; done).
    right. exists (amount NEW), (bidder_id NEW). repeat apply conj; try done.
    unfold spec_minimumBid in Hmin.
    destruct Hlead as [[Hh _]|(h & b & Hh & Hge & _)]; rewrite Hh in *;
      simpl in *; [lia|].
    destruct (h =? 0) eqn:Hz; lia.
Qed.

Lemma bids_on_snoc k bs NEW :
  bids_on k (bs ++ [NEW])
  = bids_on k bs ++ (if decide (auction_id NEW = k) then [NEW] else []).
Proof. unfold bids_on. by rewrite filter_app. Qed.

Lemma db_step_ledger t now d d' :
  db_step now d d' → t ≤ now →
  (∀ k r, auctions d !! k = Some r → row_inv t r) →
  ledger_inv d → ledger_inv d'.
Proof.
  intros Hstep Ht Hrows Hled k. specialize (Hled k).
  destruct Hstep as [d|d id seller ttl descr price incr st en ? ? ? Hfresh|d
                    |d NEW r Hpos Hat Hr Hp].
  - done.
  - simpl. destruct (decide (k = id)) as [->|Hne].
    + rewrite lookup_insert_eq. rewrite Hfresh in Hled. rewrite Hled.
      repeat apply conj; try constructor; done.
    + by rewrite lookup_insert_ne.
  - simpl. rewrite lookup_fmap. destruct (auctions d !! k) as [a|]; simpl; [|done].
    destruct (reconciled_status now a) as [Heq _]. rewrite Heq.
    unfold leader_matches in *. by simpl.
  - rewrite (committed_auctions _ _ r) by done. simpl.
    rewrite bids_on_snoc.
    destruct (decide (k = auction_id NEW)) as [->|Hne].
    + rewrite lookup_insert_eq, decide_True by done.
      rewrite Hr in Hled. destruct Hled as (Hsorted & Hall & _).
      destruct (Hrows _ _ Hr) as ((Hprice & Hincr & _ & Hstart & _) & _).
      pose proof (passes_raises _ _ _ Hp Hprice Hincr) as Hup.
      destruct Hp as (Hst & Hend & Hself & _).
      repeat apply conj.
      * apply StronglySorted_app_2; [|done|repeat constructor].
        intros b1 b2 Hb1 Hb2. apply list_elem_of_singleton in Hb2 as ->.
        rewrite Forall_forall in Hall. destruct (Hall b1 Hb1) as (_ & ? & _). lia.
      * apply Forall_app. split.
        -- eapply Forall_impl; [exact Hall|]. simpl. intros b (? & ? & ? & ?).
           repeat apply conj; try done; lia.
        -- apply Forall_singleton. simpl. specialize (Hstart Hst).
           repeat apply conj; try done; lia.
      * unfold leader_matches. by rewrite last_snoc.
    + rewrite lookup_insert_ne, decide_False by done.
      by rewrite app_nil_r.
Qed.

Lemma db_step_notifications t now d d' :
  db_step now d d' →
  (∀ k r, auctions d !! k = Some r → row_inv t r) →
  notifications_inv d → notifications_inv d'.
Proof.
  intros Hstep Hrows (Hall & Hcount & Hlen).
  destruct Hstep as [d|d id seller ttl descr price incr st en ? ? ? Hfresh|d
                    |d NEW r Hpos Hat Hr Hp]; simpl.
  - done.
  - split; [|done]. simpl. intros n Hn.
    destruct (Hall n Hn) as (k & r & Hk & Hrow & Hcase).
    exists k, r. repeat apply conj; try done.
    rewrite lookup_insert_ne; [done|]. intros <-. congruence.
  - split; [|done]. simpl. intros n Hn.
    destruct (Hall n Hn) as (k & r & Hk & Hrow & Hcase).
    exists k, (reconciled now r). rewrite lookup_fmap, Hrow.
    repeat apply conj; try done.
    destruct (reconciled_status now r) as [Heq _]. by rewrite Heq.
  - destruct (Hrows _ _ Hr) as ((_ & _ & _ & _ & Hnotseller) & _).
    destruct Hp as (_ & _ & Hself & _).
    unfold notifications_inv, committed, with_bid; simpl.
    rewrite !length_app, filter_app, length_app; simpl.
    assert (auctions
              (committed now NEW r (with_bid d NEW))
            = <[ auction_id NEW := set_leader (amount NEW) (bidder_id NEW) r ]>
                (auctions d)) as Hau
      by (apply (committed_auctions now NEW r r (with_bid d NEW)); exact Hr).
    unfold committed, with_bid in Hau; simpl in Hau. rewrite Hau.
    repeat apply conj.
    + intros n Hn. apply elem_of_app in Hn as [Hn|Hn].
      * destruct (Hall n Hn) as (k & r0 & Hk & Hrow & Hcase).
        destruct (decide (k = auction_id NEW)) as [->|Hne].
        -- exists (auction_id NEW), (set_leader (amount NEW) (bidder_id NEW) r).
           rewrite lookup_insert_eq. repeat apply conj; try done.
           assert (r0 = r) as -> by congruence. done.
        -- exists k, r0. by rewrite lookup_insert_ne.
      * exists (auction_id NEW), (set_leader (amount NEW) (bidder_id NEW) r).
        rewrite lookup_insert_eq. unfold bid_notifications in Hn.
        apply elem_of_cons in Hn as [->|Hn]; [by repeat apply conj; try left|].
        destruct (highest_bidder_id r) as [p|] eqn:Hprev;
          [|by apply elem_of_nil in Hn].
        case_bool_decide; [|by apply elem_of_nil in Hn].
        apply list_elem_of_singleton in Hn as ->. simpl.
        repeat apply conj; try done. right. split; [done|]. congruence.
    + rewrite Hcount.
      destruct (highest_bidder_id r) as [p|]; [case_bool_decide|]; simpl; lia.
    + destruct (highest_bidder_id r) as [p|]; [case_bool_decide|]; simpl; lia.
Qed.

Lemma step_world_inv w ev : world_inv w → world_inv (step w ev).
Proof.
  intros (Hrows & Hled & Hnot). unfold step; simpl.
  pose proof (exec_db_step (clock w + Z.of_N ev.1) ev.2 (db w)) as Hstep.
  split; [|split]; simpl.
  - intros k r' Hr'.
    eapply (row_step_inv (clock w)); [apply exec_row_step|lia| |exact Hr'].
    intros r Hr. by apply (Hrows k).
  - eapply (db_step_ledger (clock w)); [done|lia|done..].
  - by eapply db_step_notifications.
Qed.

Lemma run_world_inv w evs : world_inv w → world_inv (run w evs).
Proof.
  revert w. induction evs as [|ev evs IH]; intros w Hinv; simpl; [done|].
  apply IH. by apply step_world_inv.
Qed.

Lemma reachable_world_inv t0 evs : world_inv (run (initial_world t0) evs).
Proof.
  apply run_world_inv. split; [|split].
  - intros k r Hr. simpl in Hr. by rewrite lookup_empty in Hr.
  - intros k. unfold initial_world, empty_database; cbn [db auctions bids].
    by rewrite lookup_empty.
  - split; [|done]. intros n Hn. by apply elem_of_nil in Hn.
Qed.

(** ** The leader, the bids and the notifications in reachable states *)

(** In every state reached from the empty database, an auction has a
    highest bid of 0 exactly when it has no leader; a highest bid other
    than 0 is at least the starting price; and an auction still in status
    ['draft'] has no bid. *)
Theorem leader_exists_iff_bid t0 evs k r :
  auctions (db (run (initial_world t0) evs)) !! k = Some r →
  (∃ h, highest_bid r = Some h ∧ (h = 0 ∨ starting_price r ≤ h))
  ∧ (COALESCE (highest_bid r) 0 = 0 ↔ highest_bidder_id r = None)
  ∧ (status r = draft → highest_bid r = Some 0 ∧ highest_bidder_id r = None).
Proof.
  intros Hr. destruct (reachable_world_inv t0 evs) as (Hrows & _).
  destruct (Hrows k r Hr) as ((Hprice & _) & _ & _ & Hdraft & Hlead).
  destruct Hlead as [[Hh Hl]|(h & b & Hh & Hge & Hl)]; rewrite Hh, Hl; simpl.
  - split; [|split]; try done. exists 0. split; [done|by left].
  - split; [|split].
    + exists h. split; [done|by right].
    + split; [intros ->; lia|done].
    + intros Hs. specialize (Hdraft Hs). rewrite Hh in Hdraft.
      injection Hdraft as ->. lia.
Qed.

Lemma leader_exists_iff_bid_witness :
  (∃ h, highest_bid lamp_led = Some h ∧ (h = 0 ∨ starting_price lamp_led ≤ h))
  ∧ (COALESCE (highest_bid lamp_led) 0 = 0 ↔ highest_bidder_id lamp_led = None)
  ∧ (status lamp_led = draft →
     highest_bid lamp_led = Some 0 ∧ highest_bidder_id lamp_led = None).
Proof.
  apply (leader_exists_iff_bid 0 lamp_bidding 7%N lamp_led).
  vm_compute. reflexivity.
Defined.

(** In every reachable state, the bids on an auction have strictly
    increasing amounts in the order of their insertion, and the highest bid
    and the leader of the auction are the amount and the bidder of the last
    of them, or 0 and NULL when there is none: the leader fields are the
    maximum of the log of bids. *)
Theorem leader_is_last_bid t0 evs k r :
  auctions (db (run (initial_world t0) evs)) !! k = Some r →
  StronglySorted (λ b1 b2 : bid, amount b1 < amount b2)
    (bids_on k (bids (db (run (initial_world t0) evs))))
  ∧ match last (bids_on k (bids (db (run (initial_world t0) evs)))) with
    | None => highest_bid r = Some 0 ∧ highest_bidder_id r = None
    | Some b => highest_bid r = Some (amount b)
                ∧ highest_bidder_id r = Some (bidder_id b)
    end
  ∧ ∀ b, b ∈ bids_on k (bids (db (run (initial_world t0) evs))) →
         amount b ≤ COALESCE (highest_bid r) 0.
Proof.
  intros Hr. destruct (reachable_world_inv t0 evs) as (_ & Hled & _).
  specialize (Hled k). rewrite Hr in Hled.
  destruct Hled as (Hsorted & Hall & Hlast).
  split; [done|]. split; [done|].
  intros b Hb. rewrite Forall_forall in Hall. by destruct (Hall b Hb) as (_ & ? & _).
Qed.

Lemma leader_is_last_bid_witness :
  StronglySorted (λ b1 b2 : bid, amount b1 < amount b2)
    (bids_on 7%N (bids (db (run (initial_world 0) lamp_bidding))))
  ∧ match last (bids_on 7%N (bids (db (run (initial_world 0) lamp_bidding)))) with
    | None => highest_bid lamp_led = Some 0 ∧ highest_bidder_id lamp_led = None
    | Some b => highest_bid lamp_led = Some (amount b)
                ∧ highest_bidder_id lamp_led = Some (bidder_id b)
    end
  ∧ ∀ b, b ∈ bids_on 7%N (bids (db (run (initial_world 0) lamp_bidding))) →
         amount b ≤ COALESCE (highest_bid lamp_led) 0.
Proof.
  apply (leader_is_last_bid 0 lamp_bidding 7%N lamp_led).
  vm_compute. reflexivity.
Defined.

(** In every reachable state, every row of [bids] belongs to an existing
    auction, has a positive amount, was placed by somebody other than the
    seller, and was placed inside the time window of the auction. *)
Theorem recorded_bids_were_valid t0 evs b :
  b ∈ bids (db (run (initial_world t0) evs)) →
  ∃ r, auctions (db (run (initial_world t0) evs)) !! auction_id b = Some r
       ∧ 0 < amount b
       ∧ bidder_id b ≠ seller_id r
       ∧ start_time r ≤ bid_created_at b < end_time r.
Proof.
  intros Hb. destruct (reachable_world_inv t0 evs) as (_ & Hled & _).
  specialize (Hled (auction_id b)).
  assert (b ∈ bids_on (auction_id b) (bids (db (run (initial_world t0) evs))))
    as Hon by (apply list_elem_of_filter; by split).
  destruct (auctions _ !! auction_id b) as [r|].
  - exists r. destruct Hled as (_ & Hall & _). rewrite Forall_forall in Hall.
    destruct (Hall b Hon) as (? & _ & ? & ?). by split; [|split; [|split]].
  - rewrite Hled in Hon. by apply elem_of_nil in Hon.
Qed.

Lemma recorded_bids_were_valid_witness :
  ∃ r, auctions (db (run (initial_world 0) lamp_bidding)) !! 7%N = Some r
       ∧ 0 < 1000
       ∧ 2%N ≠ seller_id r
       ∧ start_time r ≤ 51 < end_time r.
Proof.
  apply (recorded_bids_were_valid 0 lamp_bidding (mk_bid 30%N 7%N 2%N 1000 51)).
  vm_compute. apply list_elem_of_here.
Defined.

(** In every reachable state, a notification is either a [new_bid] for the
    seller of its auction or an [outbid] for somebody who is not the seller:
    no other kind is ever created, and the seller is never told of being
    outbid. *)
Theorem notifications_are_for_seller_or_outbid t0 evs n :
  n ∈ notifications (db (run (initial_world t0) evs)) →
  ∃ k r, n_auction_id n = Some k
         ∧ auctions (db (run (initial_world t0) evs)) !! k = Some r
         ∧ ((type n = new_bid ∧ user_id n = seller_id r)
            ∨ (type n = outbid ∧ user_id n ≠ seller_id r)).
Proof.
  intros Hn. destruct (reachable_world_inv t0 evs) as (_ & _ & Hall & _).
  by apply Hall.
Qed.

Lemma notifications_are_for_seller_or_outbid_witness :
  ∃ k r, Some 7%N = Some k
         ∧ auctions (db (run (initial_world 0) lamp_bidding)) !! k = Some r
         ∧ ((outbid = new_bid ∧ 2%N = seller_id r)
            ∨ (outbid = outbid ∧ 2%N ≠ seller_id r)).
Proof.
  apply (notifications_are_for_seller_or_outbid 0 lamp_bidding
           {| user_id := 2%N; n_auction_id := Some 7%N; type := outbid;
              message := outbid_message 1500 "Lamp"; read := false;
              n_created_at := 53 |}).
  vm_compute. do 2 apply list_elem_of_further. apply list_elem_of_here.
Defined.

(** In every reachable state there is exactly one [new_bid] notification
    per recorded bid, and between one and two notifications per bid in
    all. *)
Theorem notifications_per_bid t0 evs :
  length (filter (λ n, type n = new_bid)
            (notifications (db (run (initial_world t0) evs))))
  = length (bids (db (run (initial_world t0) evs)))
  ∧ (length (bids (db (run (initial_world t0) evs)))
     ≤ length (notifications (db (run (initial_world t0) evs)))
     ≤ 2 * length (bids (db (run (initial_world t0) evs))))%nat.
Proof.
  destruct (reachable_world_inv t0 evs) as (_ & _ & _ & Hcount & Hlen).
  split; [done|]. split; [|done]. rewrite <- Hcount. apply length_filter.
Qed.

(** ** Reconciliation and time *)

Lemma reconciled_absorbs now1 now2 a :
  now1 ≤ now2 → reconciled now2 (reconciled now1 a) = reconciled now2 a.
Proof.
  intros Hle. unfold reconciled. destruct a as [? ? ? ? ? st en s ? ? ?]; simpl.
  destruct s; simpl;
    destruct (st <=? now1) eqn:H1, (en >? now1) eqn:H2, (en <=? now1) eqn:H3,
             (st <=? now2) eqn:H4, (en >? now2) eqn:H5, (en <=? now2) eqn:H6;
    repeat (simpl; rewrite ?H1, ?H2, ?H3, ?H4, ?H5, ?H6); try done;
    compare_times; lia.
Qed.

(** Reconciling late loses nothing: [update_auction_status] at a time
    followed by [update_auction_status] at a later time leaves the same
    database as the later call alone. *)
Theorem update_auction_status_absorbs now1 now2 d :
  now1 ≤ now2 →
  update_auction_status now2 (update_auction_status now1 d).2
  = update_auction_status now2 d.
Proof.
  intros Hle. rewrite !update_auction_status_run; simpl.
  f_equal. apply database_eq; simpl; try done.
  apply map_eq; intros k. rewrite !lookup_fmap.
  destruct (auctions d !! k); simpl; [|done].
  by rewrite reconciled_absorbs.
Qed.

Lemma update_auction_status_absorbs_witness :
  update_auction_status 150
    (update_auction_status 50 (one_auction (lamp draft (Some 0) None))).2
  = update_auction_status 150 (one_auction (lamp draft (Some 0) None)).
Proof.
  apply (update_auction_status_absorbs 50 150). lia.
Defined.

Lemma exec_ReconcileStatuses now d :
  exec now ReconcileStatuses d
  = (inr (), {| auctions := reconciled now <$> auctions d;
                bids := bids d; notifications := notifications d |}).
Proof. unfold exec, statement. by rewrite update_auction_status_run. Qed.

Lemma step_ReconcileStatuses_lookup w dt k :
  auctions (db (step w (dt, ReconcileStatuses))) !! k
  = reconciled (clock w + Z.of_N dt) <$> auctions (db w) !! k.
Proof.
  unfold step. cbn [db fst snd]. rewrite exec_ReconcileStatuses.
  cbn [snd auctions]. by rewrite lookup_fmap.
Qed.

Lemma status_after_reconciliation t0 evs dt k r :
  auctions (db (step (run (initial_world t0) evs) (dt, ReconcileStatuses)))
    !! k = Some r →
  (status r = draft
   ↔ clock (run (initial_world t0) evs) + Z.of_N dt < start_time r)
  ∧ (status r = active
     ↔ start_time r ≤ clock (run (initial_world t0) evs) + Z.of_N dt
       < end_time r)
  ∧ (status r = ended
     ↔ end_time r ≤ clock (run (initial_world t0) evs) + Z.of_N dt).
Proof.
  rewrite step_ReconcileStatuses_lookup.
  destruct (auctions _ !! k) as [r0|] eqn:Hr0; simpl; [|done].
  intros [= <-].
  destruct (reachable_world_inv t0 evs) as (Hrows & _).
  destruct (Hrows k r0 Hr0)
    as ((_ & _ & Hwin & Hact & _) & Hc & Hended & _).
  assert (clock (run (initial_world t0) evs)
          ≤ clock (run (initial_world t0) evs) + Z.of_N dt) as Hlater by lia.
  revert Hlater. generalize (clock (run (initial_world t0) evs) + Z.of_N dt).
  intros now Hlater.
  destruct (reconciled_status now r0) as [Heq Hst].
  rewrite Hst. rewrite Heq; simpl.
  destruct (status r0) eqn:Hs; try done.
  - destruct (end_time r0 <=? now) eqn:H1, (start_time r0 <=? now) eqn:H2;
      compare_times; (split; [|split]); split; try done; lia.
  - specialize (Hact eq_refl).
    destruct (end_time r0 <=? now) eqn:H1;
      compare_times; (split; [|split]); split; try done; lia.
  - specialize (Hended eq_refl).
    (split; [|split]); split; try done; lia.
Qed.

(** In a reachable state, right after [update_auction_status] has run at
    [now], the persisted status of every auction is the one its time window
    gives: ['draft'] before the start, ['active'] inside the window,
    ['ended'] from the end time on. *)
Theorem reconciled_status_is_fresh t0 evs dt k r :
  auctions (db (step (run (initial_world t0) evs) (dt, ReconcileStatuses)))
    !! k = Some r →
  (status r = draft
   ↔ clock (run (initial_world t0) evs) + Z.of_N dt < start_time r)
  ∧ (status r = active
     ↔ start_time r ≤ clock (run (initial_world t0) evs) + Z.of_N dt
       < end_time r)
  ∧ (status r = ended
     ↔ end_time r ≤ clock (run (initial_world t0) evs) + Z.of_N dt).
Proof. apply status_after_reconciliation. Qed.

Lemma reconciled_status_is_fresh_witness :
  (status lamp_led = draft ↔ 53 + Z.of_N 10 < start_time lamp_led)
  ∧ (status lamp_led = active
     ↔ start_time lamp_led ≤ 53 + Z.of_N 10 < end_time lamp_led)
  ∧ (status lamp_led = ended ↔ end_time lamp_led ≤ 53 + Z.of_N 10).
Proof.
  apply (reconciled_status_is_fresh 0 lamp_bidding 10%N 7%N lamp_led).
  vm_compute. reflexivity.
Defined.

(** When [update_auction_status] has just run at [now] in a reachable
    state, the verdict of [handle_new_bid] at the same [now] is the one of
    the decision procedure of the specification, for every bid whose
    minimum fits its type. *)
Theorem validate_after_reconciliation t0 evs dt NEW :
  (∀ r, auctions (db (step (run (initial_world t0) evs) (dt, ReconcileStatuses)))
          !! auction_id NEW = Some r →
        numeric_10_2_fits (COALESCE (highest_bid r) 0) = true
        ∧ numeric_10_2_fits (spec_minimumBid r) = true) →
  validate (db (step (run (initial_world t0) evs) (dt, ReconcileStatuses)))
    (clock (run (initial_world t0) evs) + Z.of_N dt) NEW
  = spec_validate
      (auctions (db (step (run (initial_world t0) evs) (dt, ReconcileStatuses)))
         !! auction_id NEW)
      (clock (run (initial_world t0) evs) + Z.of_N dt)
      (bidder_id NEW) (amount NEW).
Proof.
  intros Hfits. rewrite validate_run. unfold ordered_checks, spec_validate.
  destruct (auctions _ !! auction_id NEW) as [r|] eqn:Hr; [|done].
  destruct (Hfits r eq_refl) as [-> ->]. simpl.
  destruct (status_after_reconciliation t0 evs dt _ r Hr) as (_ & Hact & _).
  revert Hact. generalize (clock (run (initial_world t0) evs) + Z.of_N dt).
  intros now Hact. unfold App.isActive. rewrite Z.geb_leb.
  destruct (decide (status r = active)) as [Hs|Hs].
  - destruct (proj1 Hact Hs) as [Hstart Hend].
    rewrite (bool_decide_eq_false_2 (status r ≠ active)) by (by intros ?).
    rewrite (bool_decide_eq_false_2 (status r = ended)) by (by rewrite Hs).
    destruct (end_time r <=? now) eqn:H1, (start_time r <=? now) eqn:H2,
      (now <? end_time r) eqn:H3; simpl; try done; compare_times; lia.
  - rewrite (bool_decide_eq_true_2 (status r ≠ active)) by done. simpl.
    destruct (start_time r <=? now) eqn:H2, (now <? end_time r) eqn:H3;
      simpl; try done.
    compare_times. exfalso. apply Hs, Hact. lia.
Qed.

Lemma validate_after_reconciliation_witness :
  validate (db (step (run (initial_world 0) lamp_bidding) (10%N, ReconcileStatuses)))
    (clock (run (initial_world 0) lamp_bidding) + Z.of_N 10)
    (mk_bid 33%N 7%N 2%N 2000 63)
  = spec_validate
      (auctions (db (step (run (initial_world 0) lamp_bidding)
                       (10%N, ReconcileStatuses))) !! 7%N)
      (clock (run (initial_world 0) lamp_bidding) + Z.of_N 10) 2%N 2000.
Proof.
  apply (validate_after_reconciliation 0 lamp_bidding 10%N
           (mk_bid 33%N 7%N 2%N 2000 63)).
  intros r Hr. vm_compute in Hr. injection Hr as <-. split; reflexivity.
Defined.

(** ** What no command changes *)

Lemma row_step_frame now a o' :
  row_step now (Some a) o' →
  ∃ a', o' = Some a'
        ∧ (seller_id a' = seller_id a ∧ title a' = title a
           ∧ description a' = description a
           ∧ starting_price a' = starting_price a
           ∧ bid_increment a' = bid_increment a
           ∧ start_time a' = start_time a ∧ end_time a' = end_time a
           ∧ created_at a' = created_at a)
        ∧ (status a = ended ∨ status a = cancelled → a' = a)
        ∧ (end_time a ≤ now →
           highest_bid a' = highest_bid a
           ∧ highest_bidder_id a' = highest_bidder_id a).
Proof.
  intros Hstep. inversion Hstep as [o| | a0 | NEW r Hp]; subst.
  - exists a. by repeat apply conj.
  - exists (reconciled now a). destruct (reconciled_status now a) as [Heq Hst].
    split; [done|]. split; [by rewrite Heq|]. split.
    + intros Hs. rewrite Heq, Hst.
      destruct Hs as [Hs|Hs]; rewrite Hs; rewrite <- Hs; apply set_status_same.
    + intros _. by rewrite Heq.
  - exists (set_leader (amount NEW) (bidder_id NEW) a).
    destruct Hp as (Hst & Hend & _).
    split; [done|]. split; [done|]. split.
    + intros [Hs|Hs]; congruence.
    + intros ?. lia.
Qed.

Lemma run_frame w evs k a :
  auctions (db w) !! k = Some a →
  ∃ a', auctions (db (run w evs)) !! k = Some a'
        ∧ (seller_id a' = seller_id a ∧ title a' = title a
           ∧ description a' = description a
           ∧ starting_price a' = starting_price a
           ∧ bid_increment a' = bid_increment a
           ∧ start_time a' = start_time a ∧ end_time a' = end_time a
           ∧ created_at a' = created_at a)
        ∧ (status a = ended ∨ status a = cancelled → a' = a)
        ∧ (end_time a ≤ clock w →
           highest_bid a' = highest_bid a
           ∧ highest_bidder_id a' = highest_bidder_id a).
Proof.
  revert w a. induction evs as [|ev evs IH]; intros w a Ha; simpl.
  { exists a. by repeat apply conj. }
  pose proof (exec_row_step (clock w + Z.of_N ev.1) ev.2 (db w) k) as Hstep.
  rewrite Ha in Hstep.
  apply row_step_frame in Hstep as (a1 & Ha1 & Hterms1 & Hfinal1 & Hlate1).
  destruct (IH (step w ev) a1 Ha1) as (a' & Ha' & Hterms & Hfinal & Hlate).
  exists a'. split; [done|].
  destruct Hterms1 as (E1 & E2 & E3 & E4 & E5 & E6 & E7 & E8).
  destruct Hterms as (F1 & F2 & F3 & F4 & F5 & F6 & F7 & F8).
  split; [repeat apply conj; congruence|]. split.
  - intros Hs. specialize (Hfinal1 Hs). subst a1. by apply Hfinal.
  - intros Hend.
    destruct Hlate1 as [G1 G2]; [lia|].
    destruct Hlate as [G3 G4]; [simpl; lia|].
    split; congruence.
Qed.

(** From any database and under any sequence of commands, an auction is
    never deleted and its terms never change: the seller, the title and
    description, the starting price, the increment, the start and end
    times and the creation time stay what they were. *)
Theorem auction_terms_never_change w evs k a :
  auctions (db w) !! k = Some a →
  ∃ a', auctions (db (run w evs)) !! k = Some a'
        ∧ seller_id a' = seller_id a ∧ title a' = title a
        ∧ description a' = description a
        ∧ starting_price a' = starting_price a
        ∧ bid_increment a' = bid_increment a
        ∧ start_time a' = start_time a ∧ end_time a' = end_time a
        ∧ created_at a' = created_at a.
Proof.
  intros Ha. destruct (run_frame w evs k a Ha) as (a' & Ha' & Hterms & _).
  by exists a'.
Qed.

Lemma auction_terms_never_change_witness :
  ∃ a', auctions (db (run (run (initial_world 0) lamp_listing)
                        [ (1%N, PlaceBid 30%N 7%N 2%N 1000);
                          (200%N, ReconcileStatuses) ])) !! 7%N = Some a'
        ∧ seller_id a' = 1%N ∧ title a' = "Lamp"
        ∧ description a' = "A brass lamp"
        ∧ starting_price a' = 1000
        ∧ bid_increment a' = 500
        ∧ start_time a' = 0 ∧ end_time a' = 100
        ∧ created_at a' = 0.
Proof.
  apply (auction_terms_never_change (run (initial_world 0) lamp_listing)
           [ (1%N, PlaceBid 30%N 7%N 2%N 1000); (200%N, ReconcileStatuses) ]
           7%N (lamp active (Some 0) None)).
  vm_compute. reflexivity.
Defined.

(** From any database and under any sequence of commands, the row of an
    auction whose status is ['ended'] or ['cancelled'] stays exactly as it
    is: its highest bid and its leader are final. *)
Theorem ended_auction_is_frozen w evs k a :
  auctions (db w) !! k = Some a →
  status a = ended ∨ status a = cancelled →
  auctions (db (run w evs)) !! k = Some a.
Proof.
  intros Ha Hs. destruct (run_frame w evs k a Ha) as (a' & Ha' & _ & Hfinal & _).
  by rewrite Ha', (Hfinal Hs).
Qed.

Lemma ended_auction_is_frozen_witness :
  auctions
    (db (run (mk_world 200 (one_auction (lamp ended (Some 1000) (Some 2%N))))
           [ (5%N, PlaceBid 31%N 7%N 3%N 5000); (5%N, ReconcileStatuses) ]))
  !! 7%N = Some (lamp ended (Some 1000) (Some 2%N)).
Proof.
  apply (ended_auction_is_frozen
           (mk_world 200 (one_auction (lamp ended (Some 1000) (Some 2%N))))).
  - reflexivity.
  - left. reflexivity.
Defined.

(** From any database, once the clock has reached the end time of an
    auction, no sequence of commands changes its highest bid or its leader,
    whatever its persisted status still says. *)
Theorem no_leader_change_after_end_time w evs k a :
  auctions (db w) !! k = Some a →
  end_time a ≤ clock w →
  ∃ a', auctions (db (run w evs)) !! k = Some a'
        ∧ highest_bid a' = highest_bid a
        ∧ highest_bidder_id a' = highest_bidder_id a.
Proof.
  intros Ha Hend.
  destruct (run_frame w evs k a Ha) as (a' & Ha' & _ & _ & Hlate).
  exists a'. split; [done|]. by apply Hlate.
Qed.

Lemma no_leader_change_after_end_time_witness :
  ∃ a', auctions
          (db (run (mk_world 100 (one_auction (lamp active (Some 1000) (Some 2%N))))
                 [ (0%N, PlaceBid 31%N 7%N 3%N 5000) ])) !! 7%N = Some a'
        ∧ highest_bid a' = Some 1000
        ∧ highest_bidder_id a' = Some 2%N.
Proof.
  apply (no_leader_change_after_end_time
           (mk_world 100 (one_auction (lamp active (Some 1000) (Some 2%N))))
           [ (0%N, PlaceBid 31%N 7%N 3%N 5000) ] 7%N
           (lamp active (Some 1000) (Some 2%N))).
  - reflexivity.
  - simpl. lia.
Defined.

(** ** The effect of an accepted bid *)

Lemma PlaceBid_accepted_db now id a b amt d :
  (exec now (PlaceBid id a b amt) d).1 = inr () →
  ∃ r, auctions d !! a = Some r
       ∧ passes now (mk_bid id a b amt now) r
       ∧ 0 < amt
       ∧ (exec now (PlaceBid id a b amt) d).2
         = committed now (mk_bid id a b amt now) r
             (with_bid d (mk_bid id a b amt now)).
Proof.
  unfold exec, statement.
  destruct (INSERT_INTO_bids_cases now id a b amt d) as [[_ ->]|[Hpos ->]];
    simpl; [done|].
  match goal with |- context [handle_new_bid now ?N ?D] =>
    destruct (handle_new_bid_cases now N D) as [[e ->]|(r & Hr & Hp & ->)]
  end; [by simpl|]. cbn [fst snd]. simpl in Hr. intros _.
  exists r. by split; [|split; [|split]].
Qed.

(** An accepted bid appends exactly its own row to [bids], rewrites the
    leader fields of the auction it is on and of no other auction, and
    makes the minimum of the next bid its amount plus the increment. *)
Theorem accepted_bid_effect now id a b amt d :
  (exec now (PlaceBid id a b amt) d).1 = inr () →
  ∃ r, auctions d !! a = Some r
       ∧ bids (exec now (PlaceBid id a b amt) d).2
         = bids d ++ [mk_bid id a b amt now]
       ∧ auctions (exec now (PlaceBid id a b amt) d).2
         = <[ a := set_leader amt b r ]> (auctions d)
       ∧ (∀ k, k ≠ a →
               auctions (exec now (PlaceBid id a b amt) d).2 !! k
               = auctions d !! k)
       ∧ spec_minimumBid (set_leader amt b r) = amt + bid_increment r.
Proof.
  intros Hacc.
  destruct (PlaceBid_accepted_db _ _ _ _ _ _ Hacc) as (r & Hr & Hp & Hpos & ->).
  exists r. split; [done|]. split; [done|].
  rewrite (committed_auctions now (mk_bid id a b amt now) r r
             (with_bid d (mk_bid id a b amt now)) Hr). simpl.
  split; [done|]. split.
  - intros k Hne. by rewrite lookup_insert_ne.
  - unfold spec_minimumBid; simpl.
    destruct (amt =? 0) eqn:Hz; [lia|done].
Qed.

Lemma accepted_bid_effect_witness :
  ∃ r, auctions (one_auction (lamp active (Some 0) None)) !! 7%N = Some r
       ∧ bids (exec 50 (PlaceBid 30%N 7%N 2%N 1000)
                 (one_auction (lamp active (Some 0) None))).2
         = bids (one_auction (lamp active (Some 0) None))
           ++ [mk_bid 30%N 7%N 2%N 1000 50]
       ∧ auctions (exec 50 (PlaceBid 30%N 7%N 2%N 1000)
                     (one_auction (lamp active (Some 0) None))).2
         = <[ 7%N := set_leader 1000 2%N r ]>
             (auctions (one_auction (lamp active (Some 0) None)))
       ∧ (∀ k, k ≠ 7%N →
               auctions (exec 50 (PlaceBid 30%N 7%N 2%N 1000)
                           (one_auction (lamp active (Some 0) None))).2 !! k
               = auctions (one_auction (lamp active (Some 0) None)) !! k)
       ∧ spec_minimumBid (set_leader 1000 2%N r) = 1000 + bid_increment r.
Proof.
  apply (accepted_bid_effect 50 30%N 7%N 2%N 1000
           (one_auction (lamp active (Some 0) None))).
  reflexivity.
Defined.

(** ** The price shown *)

(** In every reachable state the price shown for an auction (the highest
    bid if there is one, else the starting price) is at least the starting
    price, and no further sequence of commands lowers it. *)
Theorem currentPrice_never_drops t0 evs k a :
  auctions (db (run (initial_world t0) evs)) !! k = Some a →
  starting_price a ≤ AuctionRoomView.currentPrice a
  ∧ ∀ evs', ∃ a',
      auctions (db (run (run (initial_world t0) evs) evs')) !! k = Some a'
      ∧ AuctionRoomView.currentPrice a ≤ AuctionRoomView.currentPrice a'.
Proof.
  intros Ha.
  assert (∀ evs0 r, auctions (db (run (initial_world t0) evs0)) !! k = Some r →
            0 < starting_price r
            ∧ ((COALESCE (highest_bid r) 0 = 0
                ∧ AuctionRoomView.currentPrice r = starting_price r)
               ∨ (starting_price r ≤ COALESCE (highest_bid r) 0
                  ∧ AuctionRoomView.currentPrice r = COALESCE (highest_bid r) 0)))
    as Hprice.
  { intros evs0 r Hr. destruct (reachable_world_inv t0 evs0) as (Hrows & _).
    destruct (Hrows k r Hr) as ((Hpos & _) & _ & _ & _ & Hlead).
    split; [done|]. unfold AuctionRoomView.currentPrice.
    destruct Hlead as [[Hh _]|(h & b & Hh & Hge & _)]; rewrite Hh; simpl.
    - by left.
    - right. split; [done|]. destruct (h >? 0) eqn:Hgt; [done|lia]. }
  destruct (Hprice evs a Ha) as (Hpos & Hcase). split.
  - destruct Hcase as [[_ ->]|[? ->]]; lia.
  - intros evs'.
    destruct (run_row (run (initial_world t0) evs) evs' k a Ha)
      as (a' & Ha' & _ & Hhigh).
    specialize (Hhigh (reachable_rows_ok t0 evs)).
    destruct (run_frame (run (initial_world t0) evs) evs' k a Ha)
      as (a'' & Ha'' & (_ & _ & _ & Hsame & _) & _).
    assert (a'' = a') as -> by congruence.
    exists a'. split; [done|].
    unfold run in Ha'. rewrite <- foldl_app in Ha'.
    destruct (Hprice (evs ++ evs') a' Ha') as (_ & Hcase').
    destruct Hcase as [[? ->]|[? ->]], Hcase' as [[? ->]|[? ->]]; lia.
Qed.

Lemma currentPrice_never_drops_witness :
  starting_price lamp_led ≤ AuctionRoomView.currentPrice lamp_led
  ∧ ∀ evs', ∃ a',
      auctions (db (run (run (initial_world 0) lamp_bidding) evs')) !! 7%N = Some a'
      ∧ AuctionRoomView.currentPrice lamp_led ≤ AuctionRoomView.currentPrice a'.
Proof.
  apply (currentPrice_never_drops 0 lamp_bidding 7%N lamp_led).
  vm_compute. reflexivity.
Defined.

(** ** The status filters of the auction list *)

Lemma filteredAuctions_elem matchesSearch f now rows row :
  row ∈ filteredAuctions matchesSearch f now rows
  ↔ row ∈ rows
    ∧ (if String.eqb f "all" then matchesSearch row.2
       else if String.eqb f "upcoming"
       then matchesSearch row.2 && App.isUpcoming row.2 now
       else if String.eqb f "active"
       then matchesSearch row.2 && App.isActive row.2 now
       else if String.eqb f "ended"
       then matchesSearch row.2 && App.isEnded row.2 now
       else matchesSearch row.2) = true.
Proof.
  unfold filteredAuctions. rewrite !list_elem_of_In. apply filter_In.
Qed.

(** Every auction that matches the search is listed under at least one of
    the filters Upcoming, Live and Ended, and an auction listed under Live
    is listed under neither of the other two. *)
Theorem status_filters_cover matchesSearch now rows row :
  row ∈ rows → matchesSearch row.2 = true →
  row ∈ filteredAuctions matchesSearch "all" now rows
  ∧ (row ∈ filteredAuctions matchesSearch "upcoming" now rows
     ∨ row ∈ filteredAuctions matchesSearch "active" now rows
     ∨ row ∈ filteredAuctions matchesSearch "ended" now rows)
  ∧ (row ∈ filteredAuctions matchesSearch "active" now rows →
     (row ∉ filteredAuctions matchesSearch "upcoming" now rows)
     ∧ (row ∉ filteredAuctions matchesSearch "ended" now rows)).
Proof.
  intros Hrow Hmatch. rewrite !filteredAuctions_elem. simpl. rewrite Hmatch. simpl.
  destruct (list_phase_cases row.2 now) as (Hup & Hact & Hend).
  split; [done|]. split.
  - destruct (decide (now < start_time row.2)) as [?|?];
      [left; split; [done|]; by apply Hup|].
    destruct (decide (end_time row.2 ≤ now ∨ status row.2 = ended)) as [?|?];
      [right; right; split; [done|]; by apply Hend|].
    right; left. split; [done|]. apply Hact. split; [lia|tauto].
  - intros [_ Ha]. apply Hact in Ha as [? ?]. split.
    + intros [_ Hu]. apply Hup in Hu. lia.
    + intros [_ He]. apply Hend in He as [?|?]; [lia|done].
Qed.

Lemma status_filters_cover_witness :
  (7%N, lamp_led) ∈ filteredAuctions (λ _, true) "all" 63 [(7%N, lamp_led)]
  ∧ ((7%N, lamp_led) ∈ filteredAuctions (λ _, true) "upcoming" 63 [(7%N, lamp_led)]
     ∨ (7%N, lamp_led) ∈ filteredAuctions (λ _, true) "active" 63 [(7%N, lamp_led)]
     ∨ (7%N, lamp_led) ∈ filteredAuctions (λ _, true) "ended" 63 [(7%N, lamp_led)])
  ∧ ((7%N, lamp_led) ∈ filteredAuctions (λ _, true) "active" 63 [(7%N, lamp_led)] →
     ((7%N, lamp_led) ∉ filteredAuctions (λ _, true) "upcoming" 63 [(7%N, lamp_led)])
     ∧ ((7%N, lamp_led) ∉ filteredAuctions (λ _, true) "ended" 63 [(7%N, lamp_led)])).
Proof.
  apply (status_filters_cover (λ _, true) 63 [(7%N, lamp_led)] (7%N, lamp_led)).
  - apply list_elem_of_here.
  - reflexivity.
Defined.

(** For an auction of a reachable state, at any time from the clock on,
    exactly one of the three phases of the auction list holds. *)
Theorem exactly_one_phase t0 evs dt k r :
  auctions (db (run (initial_world t0) evs)) !! k = Some r →
  (App.isUpcoming r (clock (run (initial_world t0) evs) + Z.of_N dt),
   App.isActive r (clock (run (initial_world t0) evs) + Z.of_N dt),
   App.isEnded r (clock (run (initial_world t0) evs) + Z.of_N dt))
  ∈ [ (true, false, false); (false, true, false); (false, false, true) ].
Proof.
  intros Hr. destruct (reachable_world_inv t0 evs) as (Hrows & _).
  destruct (Hrows k r Hr) as ((_ & _ & Hwin & _) & _ & Hended & _).
  assert (clock (run (initial_world t0) evs)
          ≤ clock (run (initial_world t0) evs) + Z.of_N dt) as Hlater by lia.
  revert Hlater. generalize (clock (run (initial_world t0) evs) + Z.of_N dt).
  intros now Hlater.
  unfold App.isUpcoming, App.isActive, App.isEnded. rewrite !Z.geb_leb.
  case_bool_decide as Hs; [specialize (Hended Hs)|];
    destruct (now <? start_time r) eqn:H1, (start_time r <=? now) eqn:H2,
      (now <? end_time r) eqn:H3, (end_time r <=? now) eqn:H4; simpl;
    compare_times; try lia; set_solver.
Qed.

Lemma exactly_one_phase_witness :
  (App.isUpcoming lamp_led (53 + Z.of_N 10),
   App.isActive lamp_led (53 + Z.of_N 10),
   App.isEnded lamp_led (53 + Z.of_N 10))
  ∈ [ (true, false, false); (false, true, false); (false, false, true) ].
Proof.
  apply (exactly_one_phase 0 lamp_bidding 10%N 7%N lamp_led).
  vm_compute. reflexivity.
Defined.

(** ** The card and the room of an auction *)

Lemma card_label_cases a now :
  start_time a < end_time a →
  (AuctionCardView.getStatusText a now = "Upcoming" ↔ now < start_time a)
  ∧ (AuctionCardView.getStatusText a now = "Live"
     ↔ start_time a < now < end_time a)
  ∧ (AuctionCardView.getStatusText a now = "Ended"
     ↔ end_time a < now
       ∨ (status a = ended ∧ (now = start_time a ∨ now = end_time a)))
  ∧ (AuctionCardView.getStatusText a now = "Draft"
     ↔ status a ≠ ended ∧ (now = start_time a ∨ now = end_time a)).
Proof.
  intros Hwin.
  unfold AuctionCardView.getStatusText, AuctionCard.isUpcoming,
    AuctionCard.isActive, AuctionCard.isEnded, AuctionCard.isBefore,
    AuctionCard.isAfter.
  case_bool_decide as Hs;
    destruct (now <? start_time a) eqn:H1, (now >? start_time a) eqn:H2,
      (now <? end_time a) eqn:H3, (now >? end_time a) eqn:H4; simpl;
    compare_times; try lia;
    repeat split; try done; try discriminate; try lia;
    try (intros [?|[? [?|?]]]; done || lia);
    try (intros [? [?|?]]; done || lia);
    try (right; split; [done|lia]); try (left; lia); try (split; [done|lia]).
Qed.

(** The label of the card, for an auction whose window is not empty: it is
    'Upcoming' before the start, 'Live' strictly inside the window, and at
    the two boundary instants it is 'Ended' if the persisted status is
    ['ended'] and 'Draft' otherwise, whatever the persisted status says
    about drafts. *)
Theorem getStatusText_cases a now :
  start_time a < end_time a →
  (AuctionCardView.getStatusText a now = "Upcoming" ↔ now < start_time a)
  ∧ (AuctionCardView.getStatusText a now = "Live"
     ↔ start_time a < now < end_time a)
  ∧ (AuctionCardView.getStatusText a now = "Ended"
     ↔ end_time a < now
       ∨ (status a = ended ∧ (now = start_time a ∨ now = end_time a)))
  ∧ (AuctionCardView.getStatusText a now = "Draft"
     ↔ status a ≠ ended ∧ (now = start_time a ∨ now = end_time a)).
Proof. apply card_label_cases. Qed.

Lemma getStatusText_cases_witness :
  (AuctionCardView.getStatusText (lamp draft (Some 0) None) 0 = "Upcoming" ↔ 0 < 0)
  ∧ (AuctionCardView.getStatusText (lamp draft (Some 0) None) 0 = "Live"
     ↔ 0 < 0 < 100)
  ∧ (AuctionCardView.getStatusText (lamp draft (Some 0) None) 0 = "Ended"
     ↔ 100 < 0 ∨ (draft = ended ∧ (0 = 0 ∨ 0 = 100)))
  ∧ (AuctionCardView.getStatusText (lamp draft (Some 0) None) 0 = "Draft"
     ↔ draft ≠ ended ∧ (0 = 0 ∨ 0 = 100)).
Proof.
  apply (getStatusText_cases (lamp draft (Some 0) None) 0). simpl. lia.
Defined.

(** An auction listed under the Live filter carries the label 'Live' on its
    card, except at the very instant of its start, where the card says
    'Draft'; and a card labelled 'Live' is listed under Live unless the
    persisted status is ['ended']. *)
Theorem live_filter_and_card_label a now :
  start_time a < end_time a →
  (App.isActive a now = true →
   AuctionCardView.getStatusText a now = "Live"
   ∨ (now = start_time a ∧ AuctionCardView.getStatusText a now = "Draft"))
  ∧ (AuctionCardView.getStatusText a now = "Live" →
     App.isActive a now = true ∨ status a = ended).
Proof.
  intros Hwin.
  destruct (card_label_cases a now Hwin) as (_ & Hlive & _ & Hdraft).
  destruct (list_phase_cases a now) as (_ & Hact & _).
  split.
  - intros Ha. apply Hact in Ha as [[? ?] ?].
    destruct (decide (now = start_time a)) as [->|?].
    + right. split; [done|]. apply Hdraft. split; [done|by left].
    + left. apply Hlive. lia.
  - intros Hl. apply Hlive in Hl.
    destruct (decide (status a = ended)) as [?|?]; [by right|left].
    apply Hact. split; [lia|done].
Qed.

Lemma live_filter_and_card_label_witness :
  (App.isActive lamp_led 0 = true →
   AuctionCardView.getStatusText lamp_led 0 = "Live"
   ∨ (0 = start_time lamp_led ∧ AuctionCardView.getStatusText lamp_led 0 = "Draft"))
  ∧ (AuctionCardView.getStatusText lamp_led 0 = "Live" →
     App.isActive lamp_led 0 = true ∨ status lamp_led = ended).
Proof.
  apply (live_filter_and_card_label lamp_led 0). simpl. lia.
Defined.

(** At the very instant an auction starts, its room shows the badge
    'Ended', offers the bid form to nobody, and tells a signed-in user that
    the auction has ended, although the auction list counts the auction as
    active unless its status is ['ended']. *)
Theorem room_at_start_time a u :
  start_time a < end_time a →
  AuctionRoomView.statusBadge a (start_time a) = "Ended"
  ∧ (∀ user, AuctionRoomView.canBid user a (start_time a) = false)
  ∧ AuctionRoomView.bidPanelMessage (Some u) a (start_time a)
    = Some "Auction has ended"
  ∧ (status a ≠ ended → App.isActive a (start_time a) = true).
Proof.
  intros Hwin.
  assert (AuctionCard.isUpcoming a (start_time a) = false) as Hup
    by (unfold AuctionCard.isUpcoming, AuctionCard.isBefore; apply Z.ltb_ge; lia).
  assert (AuctionCard.isActive a (start_time a) = false) as Hact.
  { unfold AuctionCard.isActive, AuctionCard.isAfter.
    by rewrite Z.gtb_ltb, Z.ltb_irrefl. }
  unfold AuctionRoomView.statusBadge, AuctionRoomView.bidPanelMessage,
    AuctionRoomView.canBid. rewrite Hup, Hact. simpl.
  split; [done|]. split; [by intros [?|]|]. split; [done|].
  intros Hs. apply list_phase_cases. split; [lia|done].
Qed.

Lemma room_at_start_time_witness :
  AuctionRoomView.statusBadge lamp_led (start_time lamp_led) = "Ended"
  ∧ (∀ user, AuctionRoomView.canBid user lamp_led (start_time lamp_led) = false)
  ∧ AuctionRoomView.bidPanelMessage (Some 2%N) lamp_led (start_time lamp_led)
    = Some "Auction has ended"
  ∧ (status lamp_led ≠ ended → App.isActive lamp_led (start_time lamp_led) = true).
Proof.
  apply (room_at_start_time lamp_led 2%N). simpl. lia.
Defined.

(** When [update_auction_status] has just run at [now] in a reachable
    state, a user to whom the room offers the bid form is turned down by
    [handle_new_bid] for no other reason than the amount: the verdict is
    [BelowMinimum] if the amount is below the minimum and [Accept]
    otherwise, as long as the minimum fits its type. *)
Theorem bid_form_is_honoured t0 evs dt id k u amt r :
  auctions (db (step (run (initial_world t0) evs) (dt, ReconcileStatuses)))
    !! k = Some r →
  AuctionRoomView.canBid (Some u) r
    (clock (run (initial_world t0) evs) + Z.of_N dt) = true →
  numeric_10_2_fits (COALESCE (highest_bid r) 0) = true →
  numeric_10_2_fits (spec_minimumBid r) = true →
  validate (db (step (run (initial_world t0) evs) (dt, ReconcileStatuses)))
    (clock (run (initial_world t0) evs) + Z.of_N dt)
    (mk_bid id k u amt (clock (run (initial_world t0) evs) + Z.of_N dt))
  = if amt <? spec_minimumBid r
    then Reject (BelowMinimum (spec_minimumBid r)) else Accept.
Proof.
  intros Hr Hcan Hfit0 Hfit. rewrite validate_run.
  cbn [auction_id bidder_id amount]. rewrite Hr.
  unfold ordered_checks. rewrite Hfit0, Hfit. simpl.
  destruct (status_after_reconciliation t0 evs dt k r Hr) as (_ & Hact & _).
  revert Hcan Hact. generalize (clock (run (initial_world t0) evs) + Z.of_N dt).
  intros now Hcan Hact.
  unfold AuctionRoomView.canBid, AuctionCard.isActive, AuctionCard.isAfter,
    AuctionCard.isBefore in Hcan.
  apply andb_prop in Hcan as [Hwin Hu]. apply andb_prop in Hwin as [H1 H2].
  apply negb_true_iff, bool_decide_eq_false in Hu. compare_times.
  assert (status r = active) as Hs by (apply Hact; lia).
  rewrite (bool_decide_eq_false_2 (status r ≠ active)) by (by intros ?).
  rewrite (proj2 (Z.leb_gt (end_time r) now)) by lia. simpl.
  by rewrite (bool_decide_eq_false_2 (u = seller_id r)) by done.
Qed.

Lemma bid_form_is_honoured_witness :
  validate (db (step (run (initial_world 0) lamp_bidding) (10%N, ReconcileStatuses)))
    (clock (run (initial_world 0) lamp_bidding) + Z.of_N 10)
    (mk_bid 33%N 7%N 2%N 2000 (clock (run (initial_world 0) lamp_bidding) + Z.of_N 10))
  = if 2000 <? spec_minimumBid lamp_led
    then Reject (BelowMinimum (spec_minimumBid lamp_led)) else Accept.
Proof.
  apply (bid_form_is_honoured 0 lamp_bidding 10%N 33%N 7%N 2%N 2000 lamp_led).
  - vm_compute. reflexivity.
  - vm_compute. reflexivity.
  - reflexivity.
  - reflexivity.
Defined.

(** ** The countdown *)

(** While the target lies ahead (by less than 10^15 milliseconds, the
    range in which the embedding is exact), the countdown shows hours below 24,
    minutes and seconds below 60, and its days, hours, minutes and seconds
    add up to the time left, rounded down to the second. *)
Theorem calculateTimeLeft_adds_up targetDate now :
  now < targetDate → targetDate - now < 10 ^ 15 →
  CountdownTimer.total (CountdownTimer.calculateTimeLeft targetDate now)
  = targetDate - now
  ∧ 0 ≤ CountdownTimer.days (CountdownTimer.calculateTimeLeft targetDate now)
  ∧ 0 ≤ CountdownTimer.hours (CountdownTimer.calculateTimeLeft targetDate now) < 24
  ∧ 0 ≤ CountdownTimer.minutes (CountdownTimer.calculateTimeLeft targetDate now) < 60
  ∧ 0 ≤ CountdownTimer.seconds (CountdownTimer.calculateTimeLeft targetDate now) < 60
  ∧ CountdownTimer.days (CountdownTimer.calculateTimeLeft targetDate now)
    * (1000 * 60 * 60 * 24)
    + CountdownTimer.hours (CountdownTimer.calculateTimeLeft targetDate now)
      * (1000 * 60 * 60)
    + CountdownTimer.minutes (CountdownTimer.calculateTimeLeft targetDate now)
      * (1000 * 60)
    + CountdownTimer.seconds (CountdownTimer.calculateTimeLeft targetDate now)
      * 1000
    = (targetDate - now) `div` 1000 * 1000.
Proof.
  intros Hlt _. unfold CountdownTimer.calculateTimeLeft.
  rewrite (proj2 (Z.leb_gt _ _)) by lia. simpl.
  assert (0 < targetDate - now) as Hd by lia.
  revert Hd. generalize (targetDate - now). clear. intros d Hd.
  change (1000 * 60 * 60 * 24) with 86400000.
  change (1000 * 60 * 60) with 3600000. change (1000 * 60) with 60000.
  replace (d `div` 86400000) with ((d `div` 1000) `div` 86400)
    by (rewrite Z.div_div by lia; done).
  replace (d `div` 3600000) with ((d `div` 1000) `div` 3600)
    by (rewrite Z.div_div by lia; done).
  replace (d `div` 60000) with ((d `div` 1000) `div` 60)
    by (rewrite Z.div_div by lia; done).
  assert (0 ≤ d `div` 1000) as Hs by (apply Z.div_pos; lia).
  revert Hs. generalize (d `div` 1000). intros s Hs.
  replace (s `div` 86400) with (((s `div` 60) `div` 60) `div` 24)
    by (rewrite !Z.div_div by lia; done).
  replace (s `div` 3600) with ((s `div` 60) `div` 60)
    by (rewrite Z.div_div by lia; done).
  pose proof (Z.div_mod s 60 ltac:(lia)) as E1.
  pose proof (Z.div_mod (s `div` 60) 60 ltac:(lia)) as E2.
  pose proof (Z.div_mod ((s `div` 60) `div` 60) 24 ltac:(lia)) as E3.
  pose proof (Z.mod_pos_bound s 60 ltac:(lia)).
  pose proof (Z.mod_pos_bound (s `div` 60) 60 ltac:(lia)).
  pose proof (Z.mod_pos_bound ((s `div` 60) `div` 60) 24 ltac:(lia)).
  assert (0 ≤ ((s `div` 60) `div` 60) `div` 24)
    by (repeat apply Z.div_pos; lia).
  repeat apply conj; try done; try lia.
Qed.

Lemma calculateTimeLeft_adds_up_witness :
  CountdownTimer.total (CountdownTimer.calculateTimeLeft 93784005 0) = 93784005 - 0
  ∧ 0 ≤ CountdownTimer.days (CountdownTimer.calculateTimeLeft 93784005 0)
  ∧ 0 ≤ CountdownTimer.hours (CountdownTimer.calculateTimeLeft 93784005 0) < 24
  ∧ 0 ≤ CountdownTimer.minutes (CountdownTimer.calculateTimeLeft 93784005 0) < 60
  ∧ 0 ≤ CountdownTimer.seconds (CountdownTimer.calculateTimeLeft 93784005 0) < 60
  ∧ CountdownTimer.days (CountdownTimer.calculateTimeLeft 93784005 0)
    * (1000 * 60 * 60 * 24)
    + CountdownTimer.hours (CountdownTimer.calculateTimeLeft 93784005 0)
      * (1000 * 60 * 60)
    + CountdownTimer.minutes (CountdownTimer.calculateTimeLeft 93784005 0)
      * (1000 * 60)
    + CountdownTimer.seconds (CountdownTimer.calculateTimeLeft 93784005 0) * 1000
    = (93784005 - 0) `div` 1000 * 1000.
Proof.
  apply (calculateTimeLeft_adds_up 93784005 0); lia.
Defined.

(** ** The bid counts of the dashboard *)

Lemma bidCountMap_fold (counts : list N) (acc : gmap N nat) k :
  default 0%nat
    (foldl (λ acc k, <[ k := (default 0%nat (acc !! k) + 1)%nat ]> acc) acc counts
     !! k)
  = (default 0%nat (acc !! k) + length (filter (λ x, x = k) counts))%nat.
Proof.
  revert acc. induction counts as [|x counts IH]; intros acc; simpl; [lia|].
  rewrite IH. destruct (decide (x = k)) as [->|Hne].
  - rewrite lookup_insert_eq, filter_cons_True by done. simpl. lia.
  - rewrite lookup_insert_ne, filter_cons_False by done. done.
Qed.

(** The bid count the dashboard shows for a listed auction is the number
    of rows of [bids] on that auction, and 0 when there is none. *)
Theorem bid_count_counts_bids auctionIds bs id :
  id ∈ auctionIds →
  Dashboard.bid_count auctionIds bs id = length (bids_on id bs).
Proof.
  intros Hid. unfold Dashboard.bid_count, Dashboard.bidCountMap.
  rewrite bidCountMap_fold, lookup_empty. simpl.
  unfold Dashboard.bidCounts, bids_on.
  induction bs as [|b bs IH]; [done|].
  destruct (decide (auction_id b = id)) as [Hb|Hb].
  - rewrite (filter_cons_True (λ b, auction_id b ∈ auctionIds)) by (by rewrite Hb).
    rewrite (filter_cons_True (λ b, auction_id b = id)) by done.
    rewrite fmap_cons, filter_cons_True by done. simpl. by rewrite IH.
  - rewrite (filter_cons_False (λ b, auction_id b = id)) by done.
    destruct (decide (auction_id b ∈ auctionIds)) as [Hin|Hin].
    + rewrite (filter_cons_True (λ b, auction_id b ∈ auctionIds)) by done.
      rewrite fmap_cons, filter_cons_False by done. done.
    + by rewrite (filter_cons_False (λ b, auction_id b ∈ auctionIds)) by done.
Qed.

Lemma bid_count_counts_bids_witness :
  Dashboard.bid_count [7%N; 8%N] (bids (db (run (initial_world 0) lamp_bidding))) 7%N
  = length (bids_on 7%N (bids (db (run (initial_world 0) lamp_bidding)))).
Proof.
  apply (bid_count_counts_bids [7%N; 8%N]). apply list_elem_of_here.
Defined.

(** ** The trigger function of the initial schema *)






(** ** The tables and the first migration *)


